(** * darm: the ARMv7 decoder of [armv7.c]

    A shallow embedding of the condition registry, the shifter-operand
    decoder and the instruction decoder of [armv7.c], followed by the
    properties of the specification that concern them.

    Conventions.
    - A [uint32_t] is a [Z]; where C arithmetic can leave the 32-bit range
      the wrap-around is written out with [u32].
    - A [const char *] that may be [NULL] is an [option string]; the string
      is the text before the terminating NUL.
    - [armv7_disas_cond] and [armv7_disassemble] write through the pointer
      [d]; they are embedded in state-passing style and return the pair of
      the C return value and the record as the caller finds it afterwards. *)

From Stdlib Require Import ZArith List String Bool Lia.
Import ListNotations.

Local Open Scope Z_scope.

(** ** Machine integers *)

Definition u32 (x : Z) : Z := x mod 2 ^ 32.

(** The value of a 32-bit pattern read as a two's complement [int32_t]. *)
Definition to_int32 (x : Z) : Z := if x <? 2 ^ 31 then x else x - 2 ^ 32.

Definition BITMSK_12 : Z := Z.shiftl 1 12 - 1.
Definition BITMSK_24 : Z := Z.shiftl 1 24 - 1.

(** Reading [a[i]] of a C array; [None] stands for a read outside the array. *)
Definition array_get {A : Type} (a : list A) (i : Z) : option A :=
  if i <? 0 then None else nth_error a (Z.to_nat i).

(** ** The declarations of [darm.h] and [armv7-tbl.h] *)

(** Modelled from the spec: the enumeration [armv7_instr_t] is declared in
    [darm.h], which is not among the sources.  The enumerators that [armv7.c]
    names are listed; [I_OTHER n] stands for the remaining instruction
    identities of the header. *)
Inductive armv7_instr_t : Type :=
| I_INVLD | I_ADD | I_SUB | I_ADR | I_SVC
| I_BKPT | I_BX | I_BXJ | I_BLX | I_MSR
| I_QSUB | I_SMLAW | I_SMULW
| I_MOV | I_MVN | I_LSL | I_ROR | I_RRX | I_NOP
| I_OTHER (n : Z).

(** Modelled from the spec: the enumeration [armv7_enctype_t] of [darm.h]: the
    invalid marker, the nine encoding classes of the specification, and
    [T_OTHER n] for any further class of the header, which the [switch] of
    [armv7_disas_cond] sends to its final [return -1]. *)
Inductive armv7_enctype_t : Type :=
| T_INVLD | T_ARITH_SHIFT | T_ARITH_IMM | T_BRNCHSC | T_BRNCHMISC
| T_MOV_IMM | T_CMP_OP | T_CMP_IMM | T_OPLESS | T_DST_SRC
| T_OTHER (n : Z).

Definition instr_eq_dec (a b : armv7_instr_t) : {a = b} + {a <> b}.
Proof. decide equality; apply Z.eq_dec. Defined.

Definition instr_eqb (a b : armv7_instr_t) : bool :=
  if instr_eq_dec a b then true else false.

(** Modelled from the spec: the record [darm_t] of [darm.h], with the members
    that [armv7.c] reads or writes.  The integer members are [uint32_t]. *)
Record darm_t : Type := mk_darm {
  w : Z;
  instr : armv7_instr_t;
  instr_type : armv7_enctype_t;
  cond : Z;
  S : Z;
  Rd : Z;
  Rn : Z;
  Rm : Z;
  Rs : Z;
  type : Z;
  shift_is_reg : Z;
  shift : Z;
  imm : Z;
  add : Z
}.

(** Assignments [d->f = v]. *)
Definition set_w (d : darm_t) (v : Z) : darm_t :=
  mk_darm v (instr d) (instr_type d) (cond d) (S d) (Rd d) (Rn d) (Rm d)
          (Rs d) (type d) (shift_is_reg d) (shift d) (imm d) (add d).
Definition set_instr (d : darm_t) (v : armv7_instr_t) : darm_t :=
  mk_darm (w d) v (instr_type d) (cond d) (S d) (Rd d) (Rn d) (Rm d)
          (Rs d) (type d) (shift_is_reg d) (shift d) (imm d) (add d).
Definition set_instr_type (d : darm_t) (v : armv7_enctype_t) : darm_t :=
  mk_darm (w d) (instr d) v (cond d) (S d) (Rd d) (Rn d) (Rm d)
          (Rs d) (type d) (shift_is_reg d) (shift d) (imm d) (add d).
Definition set_cond (d : darm_t) (v : Z) : darm_t :=
  mk_darm (w d) (instr d) (instr_type d) v (S d) (Rd d) (Rn d) (Rm d)
          (Rs d) (type d) (shift_is_reg d) (shift d) (imm d) (add d).
Definition set_S (d : darm_t) (v : Z) : darm_t :=
  mk_darm (w d) (instr d) (instr_type d) (cond d) v (Rd d) (Rn d) (Rm d)
          (Rs d) (type d) (shift_is_reg d) (shift d) (imm d) (add d).
Definition set_Rd (d : darm_t) (v : Z) : darm_t :=
  mk_darm (w d) (instr d) (instr_type d) (cond d) (S d) v (Rn d) (Rm d)
          (Rs d) (type d) (shift_is_reg d) (shift d) (imm d) (add d).
Definition set_Rn (d : darm_t) (v : Z) : darm_t :=
  mk_darm (w d) (instr d) (instr_type d) (cond d) (S d) (Rd d) v (Rm d)
          (Rs d) (type d) (shift_is_reg d) (shift d) (imm d) (add d).
Definition set_Rm (d : darm_t) (v : Z) : darm_t :=
  mk_darm (w d) (instr d) (instr_type d) (cond d) (S d) (Rd d) (Rn d) v
          (Rs d) (type d) (shift_is_reg d) (shift d) (imm d) (add d).
Definition set_Rs (d : darm_t) (v : Z) : darm_t :=
  mk_darm (w d) (instr d) (instr_type d) (cond d) (S d) (Rd d) (Rn d) (Rm d)
          v (type d) (shift_is_reg d) (shift d) (imm d) (add d).
Definition set_type (d : darm_t) (v : Z) : darm_t :=
  mk_darm (w d) (instr d) (instr_type d) (cond d) (S d) (Rd d) (Rn d) (Rm d)
          (Rs d) v (shift_is_reg d) (shift d) (imm d) (add d).
Definition set_shift_is_reg (d : darm_t) (v : Z) : darm_t :=
  mk_darm (w d) (instr d) (instr_type d) (cond d) (S d) (Rd d) (Rn d) (Rm d)
          (Rs d) (type d) v (shift d) (imm d) (add d).
Definition set_shift (d : darm_t) (v : Z) : darm_t :=
  mk_darm (w d) (instr d) (instr_type d) (cond d) (S d) (Rd d) (Rn d) (Rm d)
          (Rs d) (type d) (shift_is_reg d) v (imm d) (add d).
Definition set_imm (d : darm_t) (v : Z) : darm_t :=
  mk_darm (w d) (instr d) (instr_type d) (cond d) (S d) (Rd d) (Rn d) (Rm d)
          (Rs d) (type d) (shift_is_reg d) (shift d) v (add d).
Definition set_add (d : darm_t) (v : Z) : darm_t :=
  mk_darm (w d) (instr d) (instr_type d) (cond d) (S d) (Rd d) (Rn d) (Rm d)
          (Rs d) (type d) (shift_is_reg d) (shift d) (imm d) v.

(** What [armv7.c] takes from the two headers: the register index [PC], the
    enumerators whose value is 0 (what [memset] leaves in the two enumeration
    members), and the five lookup tables of [armv7-tbl.h], each a function of
    the index.  The decoder is verified for every such header. *)
Class darm_header : Type := {
  PC : Z;
  instr_memset0 : armv7_instr_t;
  enctype_memset0 : armv7_enctype_t;
  armv7_instr_labels : Z -> armv7_instr_t;
  armv7_instr_types : Z -> armv7_enctype_t;
  type4_instr_lookup : Z -> armv7_instr_t;
  type_opless_instr_lookup : Z -> armv7_instr_t;
  type_shift_instr_lookup : Z -> armv7_instr_t
}.

(** ** The condition registry *)

Record condition_entry : Type := mk_cc {
  mnemonic_extension : string;
  meaning_integer : string;
  meaning_fp : string
}.

Definition g_condition_codes : list condition_entry := [
  mk_cc "EQ" "Equal" "Equal";
  mk_cc "NE" "Not equal" "Not equal, or unordered";
  mk_cc "CS" "Carry Set" "Greater than, equal, or unordered";
  mk_cc "CC" "Carry Clear" "Less than";
  mk_cc "MI" "Minus, negative" "Less than";
  mk_cc "PL" "Plus, positive or zero" "Greater than, equal, or unordered";
  mk_cc "VS" "Overflow" "Unordered";
  mk_cc "VC" "No overflow" "Not unordered";
  mk_cc "HI" "Unsigned higher" "Greater than, unordered";
  mk_cc "LS" "Unsigned lower or same" "Greater than, or unordered";
  mk_cc "GE" "Signed greater than or equal" "Greater than, or unordered";
  mk_cc "LT" "Signed less than" "Less than, or unordered";
  mk_cc "GT" "Signed greater than" "Greater than";
  mk_cc "LE" "Signed less than or equal" "Less than, equal, or unordered";
  mk_cc "AL" "Always (unconditional)" "Always (unconditional)";
  (* alias for CS *)
  mk_cc "HS" "Carry Set" "Greater than, equal, or unordered";
  (* alias for CC *)
  mk_cc "LO" "Carry Clear" "Less than"
].

(** The result of [armv7_condition_info]: the returned pointer and what was
    stored through the two out-pointers ([None]: nothing was stored). *)
Record condition_info : Type := mk_info {
  info_ret : option string;
  info_integer : option string;
  info_fp : option string
}.

(** [want_integer] and [want_fp] say whether the pointers [meaning_integer]
    and [meaning_fp] of the caller are non-NULL. *)
Definition armv7_condition_info (condition_flag : Z)
    (want_integer want_fp : bool) (omit_always_mnemonic : Z)
  : condition_info :=
  if (condition_flag <? 0) || (condition_flag >? 14) then
    mk_info None None None
  else
    match array_get g_condition_codes condition_flag with
    | None => mk_info None None None
    | Some e =>
        let out_integer :=
          if want_integer then Some (meaning_integer e) else None in
        let out_fp := if want_fp then Some (meaning_fp e) else None in
        (* the "AL" mnemonic extension can be omitted *)
        if negb (omit_always_mnemonic =? 0) && (condition_flag =? 14) then
          mk_info (Some EmptyString) out_integer out_fp
        else
          mk_info (Some (mnemonic_extension e)) out_integer out_fp
    end.

(** The [for] loop of [armv7_condition_index], started at index [i] on the
    entries that remain. *)
Fixpoint condition_index_loop (condition_code : string)
    (entries : list condition_entry) (i : Z) : Z :=
  match entries with
  | [] => -1
  | e :: rest =>
      if String.eqb condition_code (mnemonic_extension e) then i
      else condition_index_loop condition_code rest (i + 1)
  end.

Definition armv7_condition_index (condition_code : option string) : Z :=
  match condition_code with
  | None => -1
  | Some EmptyString => 14 (* the "AL" condition flag *)
  | Some code => condition_index_loop code g_condition_codes 0
  end.

(** ** The shifter-operand decoder *)

Definition shift_types : list string :=
  ["LSL"%string; "LSR"%string; "ASR"%string; "ROR"%string].

(** The result is the pair stored through [type] and [immediate]; a [NULL]
    label is [None].  The outer [None] is the read of [shift_types] outside
    its four entries. *)
Definition armv7_shift_decode (d : darm_t) : option (option string * Z) :=
  if (type d =? 0) && (Rs d =? 0) then
    Some (None, 0)
  else if (type d =? 3) && (Rs d =? 0) then
    Some (Some "RRX"%string, 0)
  else
    match array_get shift_types (type d) with
    | None => None
    | Some label =>
        let immediate := Rs d in
        (* 32 is encoded as 0 *)
        let immediate :=
          if ((type d =? 1) || (type d =? 2)) && (Rs d =? 0) then 32
          else immediate in
        Some (Some label, immediate)
    end.

(** ** The decoder *)

(** The bits 27-20 of a word, which select the row of the two main tables. *)
Definition row (w : Z) : Z := Z.land (Z.shiftr w 20) 0xff.

(** The record after [memset(d, 0, sizeof(darm_t))]. *)
Definition darm_memset0 `{darm_header} : darm_t :=
  mk_darm 0 instr_memset0 enctype_memset0 0 0 0 0 0 0 0 0 0 0 0.

Section Decoder.

Context `{hdr : darm_header}.

Definition armv7_disas_cond (d : darm_t) (w : Z) : Z * darm_t :=
  (* the instruction label *)
  let d := set_instr d (armv7_instr_labels (Z.land (Z.shiftr w 20) 0xff)) in
  let d :=
    set_instr_type d (armv7_instr_types (Z.land (Z.shiftr w 20) 0xff)) in
  (* do a lookup for the type of instruction *)
  match instr_type d with
  | T_INVLD => (-1, d)

  | T_ARITH_SHIFT =>
      let d := set_S d (Z.land (Z.shiftr w 20) 1) in
      let d := set_Rd d (Z.land (Z.shiftr w 12) 15) in
      let d := set_Rn d (Z.land (Z.shiftr w 16) 15) in
      let d := set_Rm d (Z.land w 15) in
      let d := set_type d (Z.land (Z.shiftr w 5) 3) in
      let d := set_shift_is_reg d (Z.land (Z.shiftr w 4) 1) in
      if negb (shift_is_reg d =? 0) then
        (0, set_Rs d (Z.land (Z.shiftr w 8) 15))
      else
        (0, set_shift d (Z.land (Z.shiftr w 7) 31))

  | T_ARITH_IMM =>
      let d := set_S d (Z.land (Z.shiftr w 20) 1) in
      let d := set_Rd d (Z.land (Z.shiftr w 12) 15) in
      let d := set_Rn d (Z.land (Z.shiftr w 16) 15) in
      let d := set_imm d (Z.land w BITMSK_12) in
      (* check whether this instruction is in fact an ADR instruction *)
      if (instr_eqb (instr d) I_ADD || instr_eqb (instr d) I_SUB)
         && (S d =? 0) && (Rn d =? PC) then
        let d := set_instr d I_ADR in
        let d := set_Rn d 0 in
        (0, set_add d (Z.land (Z.shiftr w 23) 1))
      else
        (0, d)

  | T_BRNCHSC =>
      let d := set_imm d (Z.land w BITMSK_24) in
      (* B and BL: sign-extend and multiply with four *)
      if negb (instr_eqb (instr d) I_SVC) then
        if negb (Z.land (Z.shiftr (imm d) 23) 1 =? 0) then
          (0, set_imm d (u32 (Z.shiftl (Z.lor (imm d) 0xff000000) 2)))
        else
          (0, set_imm d (u32 (Z.shiftl (imm d) 2)))
      else
        (0, d)

  | T_BRNCHMISC =>
      (* first get the real instruction label *)
      let d := set_instr d (type4_instr_lookup (Z.land (Z.shiftr w 4) 15)) in
      match instr d with
      | I_BKPT =>
          (0, set_imm d (u32 (Z.shiftl (Z.land (Z.shiftr w 8) BITMSK_12) 4
                              + Z.land w 15)))
      | I_BX | I_BXJ | I_BLX =>
          (0, set_Rm d (Z.land w 15))
      | I_MSR =>
          let d := set_Rn d (Z.land w 15) in
          (0, set_imm d (Z.land (Z.shiftr w 18) 3))
      | _ => (-1, d)
      end

  | T_MOV_IMM =>
      let d := set_Rd d (Z.land (Z.shiftr w 12) 15) in
      let d := set_imm d (Z.land w BITMSK_12) in
      (* the MOV and MVN instructions have an S bit *)
      if instr_eqb (instr d) I_MOV || instr_eqb (instr d) I_MVN then
        (0, set_S d (Z.land (Z.shiftr w 20) 1))
      else
        (* MOVW and MOVT take another 4 bits of immediate *)
        (0, set_imm d
              (Z.lor (imm d) (u32 (Z.shiftl (Z.land (Z.shiftr w 16) 15) 12))))

  | T_CMP_OP =>
      let d := set_Rn d (Z.land (Z.shiftr w 16) 15) in
      let d := set_Rm d (Z.land w 15) in
      let d := set_type d (Z.land (Z.shiftr w 5) 3) in
      let d := set_shift_is_reg d (Z.land (Z.shiftr w 4) 1) in
      if negb (shift_is_reg d =? 0) then
        (0, set_Rs d (Z.land (Z.shiftr w 8) 15))
      else
        (0, set_shift d (Z.land (Z.shiftr w 7) 31))

  | T_CMP_IMM =>
      let d := set_Rn d (Z.land (Z.shiftr w 16) 15) in
      (0, set_imm d (Z.land w BITMSK_12))

  | T_OPLESS =>
      let d := set_instr d (type_opless_instr_lookup (Z.land w 7)) in
      (if instr_eqb (instr d) I_INVLD then -1 else 0, d)

  | T_DST_SRC =>
      let d :=
        set_instr d (type_shift_instr_lookup (Z.land (Z.shiftr w 4) 15)) in
      if negb (instr_eqb (instr d) I_INVLD) then
        let d := set_S d (Z.land (Z.shiftr w 20) 1) in
        let d := set_Rd d (Z.land (Z.shiftr w 12) 15) in
        let d := set_type d (Z.land (Z.shiftr w 5) 3) in
        if negb (Z.land (Z.shiftr w 4) 1 =? 0) then
          let d := set_Rm d (Z.land (Z.shiftr w 8) 15) in
          (0, set_Rn d (Z.land w 15))
        else
          let d := set_Rm d (Z.land w 15) in
          let d := set_shift d (Z.land (Z.shiftr w 7) 31) in
          (* a LSL with a zero shift is actually a MOV *)
          if instr_eqb (instr d) I_LSL && (type d =? 0) && (shift d =? 0)
          then
            let d := set_instr d I_MOV in
            (* if Rd and Rm are equal, then this is a NOP *)
            if Rd d =? Rm d then (0, set_instr d I_NOP) else (0, d)
          (* a ROR with a zero shift is actually a RRX *)
          else if instr_eqb (instr d) I_ROR && (type d =? 3)
                  && (shift d =? 0)
          then (0, set_instr d I_RRX)
          else (0, d)
      else
        (* fall-through for all STR instructions *)
        (-1, d)

  | T_OTHER _ => (-1, d)
  end.

(** The argument [d] is the record the pointer designates on entry. *)
Definition armv7_disassemble (d : darm_t) (w : Z) : Z * darm_t :=
  let ret := -1 in
  (* clear the entire darm state *)
  let d := darm_memset0 in
  let d := set_cond d (Z.land (Z.shiftr w 28) 15) in
  let d := set_w d w in
  let '(ret, d) :=
    if cond d =? 15 then (ret, d) (* unconditional instructions: TODO *)
    else armv7_disas_cond d w in
  (* return error *)
  if ret <? 0 then (ret, d) else (0, d).

End Decoder.

(** ** A header to run the decoder on

    [armv7-tbl.h] is not among the sources.  [arm_sample] is an excerpt of
    the ARM encoding tables, enough to evaluate the decoder on concrete
    words: the rows of bits 27-20 for ADD and SUB with an immediate, the
    register move and shift group, CMP with an immediate, the hint group,
    BX and its neighbours, B, BL and SVC.  The theorems below hold for every
    header; the sample only serves the examples. *)

Definition I_B : armv7_instr_t := I_OTHER 0.
Definition I_BL : armv7_instr_t := I_OTHER 1.
Definition I_CMP : armv7_instr_t := I_OTHER 2.
Definition I_LSR : armv7_instr_t := I_OTHER 3.
Definition I_ASR : armv7_instr_t := I_OTHER 4.

Definition between (lo hi i : Z) : bool := (lo <=? i) && (i <=? hi).

Definition sample_instr_labels (i : Z) : armv7_instr_t :=
  if between 0x24 0x25 i then I_SUB
  else if between 0x28 0x29 i then I_ADD
  else if i =? 0x12 then I_BX
  else if between 0x1a 0x1b i then I_MOV
  else if i =? 0x32 then I_NOP
  else if i =? 0x35 then I_CMP
  else if between 0xa0 0xaf i then I_B
  else if between 0xb0 0xbf i then I_BL
  else if between 0xf0 0xff i then I_SVC
  else I_INVLD.

Definition sample_instr_types (i : Z) : armv7_enctype_t :=
  if between 0x24 0x25 i then T_ARITH_IMM
  else if between 0x28 0x29 i then T_ARITH_IMM
  else if i =? 0x12 then T_BRNCHMISC
  else if between 0x1a 0x1b i then T_DST_SRC
  else if i =? 0x32 then T_OPLESS
  else if i =? 0x35 then T_CMP_IMM
  else if between 0xa0 0xaf i then T_BRNCHSC
  else if between 0xb0 0xbf i then T_BRNCHSC
  else if between 0xf0 0xff i then T_BRNCHSC
  else T_INVLD.

Definition sample_type4 (i : Z) : armv7_instr_t :=
  nth (Z.to_nat i)
      [I_MSR; I_BX; I_BXJ; I_BLX; I_INVLD; I_QSUB; I_INVLD; I_BKPT;
       I_SMLAW; I_INVLD; I_SMULW] I_INVLD.

Definition sample_opless (i : Z) : armv7_instr_t :=
  nth (Z.to_nat i)
      [I_NOP; I_OTHER 10; I_OTHER 11; I_OTHER 12; I_OTHER 13] I_INVLD.

Definition sample_shift (i : Z) : armv7_instr_t :=
  nth (Z.to_nat i)
      [I_LSL; I_LSL; I_LSR; I_LSR; I_ASR; I_ASR; I_ROR; I_ROR;
       I_LSL; I_INVLD; I_LSR; I_INVLD; I_ASR; I_INVLD; I_ROR; I_INVLD]
      I_INVLD.

Definition arm_sample : darm_header := {|
  PC := 15;
  instr_memset0 := I_INVLD;
  enctype_memset0 := T_INVLD;
  armv7_instr_labels := sample_instr_labels;
  armv7_instr_types := sample_instr_types;
  type4_instr_lookup := sample_type4;
  type_opless_instr_lookup := sample_opless;
  type_shift_instr_lookup := sample_shift
|}.

(** A record of the caller before the call, with recognisable contents. *)
Definition d_stale : darm_t :=
  mk_darm 0xdeadbeef I_SVC T_CMP_IMM 7 1 2 3 4 5 2 1 9 0x1234 1.

(** The sample extended with the rows of the register forms: ADD and CMP
    with a shifted register, MOV with an immediate, MOVW and MOVT. *)

Definition I_MOVW : armv7_instr_t := I_OTHER 6.
Definition I_MOVT : armv7_instr_t := I_OTHER 7.

Definition arm_sample_ext : darm_header := {|
  PC := 15;
  instr_memset0 := I_INVLD;
  enctype_memset0 := T_INVLD;
  armv7_instr_labels := fun i =>
    if between 0x08 0x09 i then I_ADD
    else if i =? 0x15 then I_CMP
    else if between 0x3a 0x3b i then I_MOV
    else if i =? 0x30 then I_MOVW
    else if i =? 0x34 then I_MOVT
    else sample_instr_labels i;
  armv7_instr_types := fun i =>
    if between 0x08 0x09 i then T_ARITH_SHIFT
    else if i =? 0x15 then T_CMP_OP
    else if between 0x3a 0x3b i then T_MOV_IMM
    else if i =? 0x30 then T_MOV_IMM
    else if i =? 0x34 then T_MOV_IMM
    else sample_instr_types i;
  type4_instr_lookup := sample_type4;
  type_opless_instr_lookup := sample_opless;
  type_shift_instr_lookup := sample_shift
|}.

(** ** The name accessors *)

(** Modelled from the spec: the macro [ARRAYSIZE] of [darm.h] is not among
    the sources; it is taken to be the number of elements of the array, a
    value of type [size_t], as the loop of [armv7_condition_index] uses it. *)
Definition ARRAYSIZE {A : Type} (a : list A) : Z :=
  Z.of_nat (List.length a).

Section Accessors.

(** The width of [size_t], and the three name tables of [armv7-tbl.h]; an
    entry of a table is a pointer, [None] for [NULL]. *)
Variable size_t_bits : Z.
Variables armv7_mnemonics armv7_enctypes armv7_registers
  : list (option string).

(** The conversion of an integer to [size_t], which the comparison with
    [ARRAYSIZE] applies to its left operand. *)
Definition to_size_t (x : Z) : Z := x mod 2 ^ size_t_bits.

(** The argument is the integer value of the enumerator.  The result is the
    returned pointer; the outer [None] is a read outside the table. *)
Definition armv7_mnemonic_by_index (instr : Z) : option (option string) :=
  if to_size_t instr <? ARRAYSIZE armv7_mnemonics
  then array_get armv7_mnemonics instr
  else Some None.

Definition armv7_enctype_by_index (enctype : Z) : option (option string) :=
  if to_size_t enctype <? ARRAYSIZE armv7_enctypes
  then array_get armv7_enctypes enctype
  else Some None.

Definition armv7_register_by_index (reg : Z) : option (option string) :=
  if to_size_t reg <? ARRAYSIZE armv7_registers
  then array_get armv7_registers reg
  else Some None.

End Accessors.

(** Register names to run the accessors on. *)
Definition sample_registers : list (option string) :=
  map Some ["r0"; "r1"; "r2"; "r3"; "r4"; "r5"; "r6"; "r7"; "r8"; "r9";
            "r10"; "r11"; "r12"; "SP"; "LR"; "PC"]%string.

(** * Properties *)

(** ** Condition registry *)

Lemma condition_index_empty : armv7_condition_index (Some EmptyString) = 14.
Proof. reflexivity. Qed.

Lemma condition_index_null : armv7_condition_index None = -1.
Proof. reflexivity. Qed.

Lemma condition_index_loop_unmatched (code : string) :
  forall entries i,
    ~ In code (map mnemonic_extension entries) ->
    condition_index_loop code entries i = -1.
Proof.
  induction entries as [|e rest IH]; intros i Hnot; cbn [condition_index_loop].
  - reflexivity.
  - destruct (String.eqb_spec code (mnemonic_extension e)) as [Heq|Hne].
    + exfalso. apply Hnot. left. symmetry. exact Heq.
    + apply IH. intro Hin. apply Hnot. right. exact Hin.
Qed.

(** Text that matches no table entry is not found. *)
Lemma condition_index_unmatched (code : string) :
  code <> EmptyString ->
  ~ In code (map mnemonic_extension g_condition_codes) ->
  armv7_condition_index (Some code) = -1.
Proof.
  intros Hne Hnot. unfold armv7_condition_index.
  destruct code as [|c rest]; [congruence|].
  now apply condition_index_loop_unmatched.
Qed.

(** A match is reported with the position of the entry in the table. *)
Lemma condition_index_loop_found (code : string) :
  forall entries i k,
    condition_index_loop code entries i = k -> k <> -1 -> 0 <= i ->
    exists e, nth_error entries (Z.to_nat (k - i)) = Some e
              /\ mnemonic_extension e = code /\ i <= k.
Proof.
  induction entries as [|e rest IH]; intros i k Hk Hfound Hi;
    cbn [condition_index_loop] in Hk.
  - congruence.
  - destruct (String.eqb_spec code (mnemonic_extension e)) as [Heq|Hne].
    + subst k. exists e. rewrite Z.sub_diag. cbn. split; [reflexivity|].
      split; [now symmetry | lia].
    + destruct (IH (i + 1) k Hk Hfound ltac:(lia)) as (e' & Hn & He & Hle).
      exists e'. split; [|split; [exact He | lia]].
      replace (Z.to_nat (k - i)) with (Datatypes.S (Z.to_nat (k - (i + 1))))
        by lia.
      exact Hn.
Qed.

(** C1: the reverse lookup returns the table position of the matching entry,
    so the aliases "HS" and "LO" give 15 and 16 while their canonical entries
    "CS" and "CC" give 2 and 3: the alias and the canonical mnemonic do not
    map to the same condition field. *)
Theorem condition_index_alias_positions :
  armv7_condition_index (Some "HS"%string) = 15
  /\ armv7_condition_index (Some "CS"%string) = 2
  /\ armv7_condition_index (Some "LO"%string) = 16
  /\ armv7_condition_index (Some "CC"%string) = 3.
Proof. repeat split; reflexivity. Qed.

(** The forward lookup rejects what the reverse lookup returns for the two
    aliases. *)
Lemma condition_info_rejects_alias_positions (wi wf : bool) (omit : Z) :
  armv7_condition_info (armv7_condition_index (Some "HS"%string)) wi wf omit
    = mk_info None None None
  /\ armv7_condition_info (armv7_condition_index (Some "LO"%string)) wi wf omit
    = mk_info None None None.
Proof. split; reflexivity. Qed.

Lemma condition_flag_cases (flag : Z) :
  0 <= flag <= 14 -> In flag (map Z.of_nat (seq 0 15)).
Proof.
  intros H. apply in_map_iff. exists (Z.to_nat flag). split; [lia|].
  apply in_seq. lia.
Qed.

(** C8: for every condition field in [0,14] the lookup succeeds and the
    integer and floating-point meanings it stores are non-empty; for 14 the
    omit-always variant returns the empty suffix and the other variant "AL";
    outside [0,14] the lookup returns not-found and stores nothing. *)
Theorem condition_info_spec (flag omit : Z) (wi wf : bool) :
  (0 <= flag <= 14 ->
     exists suffix mi mf,
       armv7_condition_info flag wi wf omit
         = mk_info (Some suffix)
                   (if wi then Some mi else None)
                   (if wf then Some mf else None)
       /\ mi <> EmptyString /\ mf <> EmptyString)
  /\ (flag = 14 -> omit <> 0 ->
        info_ret (armv7_condition_info flag wi wf omit) = Some EmptyString)
  /\ (flag = 14 -> omit = 0 ->
        info_ret (armv7_condition_info flag wi wf omit) = Some "AL"%string)
  /\ (~ 0 <= flag <= 14 ->
        armv7_condition_info flag wi wf omit = mk_info None None None).
Proof.
  repeat split.
  - intros Hflag. apply condition_flag_cases in Hflag. cbn in Hflag.
    unfold armv7_condition_info.
    destruct (Z.eqb_spec omit 0) as [Ho|Ho];
      repeat (destruct Hflag as [<-|Hflag];
              [cbn; eexists _, _, _; repeat split; discriminate|]);
      contradiction.
  - intros -> Ho. unfold armv7_condition_info. cbn.
    destruct (Z.eqb_spec omit 0); [contradiction|reflexivity].
  - intros -> ->. reflexivity.
  - intros Hout. unfold armv7_condition_info.
    destruct (Z.ltb_spec flag 0); [reflexivity|].
    destruct (Z.gtb_spec flag 14); [reflexivity|]. lia.
Qed.

Lemma condition_info_spec_witness :
  (exists suffix mi mf,
     armv7_condition_info 14 true true 1
       = mk_info (Some suffix) (Some mi) (Some mf)
     /\ mi <> EmptyString /\ mf <> EmptyString)
  /\ info_ret (armv7_condition_info 14 true true 1) = Some EmptyString
  /\ info_ret (armv7_condition_info 14 true true 0) = Some "AL"%string
  /\ armv7_condition_info 15 true true 0 = mk_info None None None.
Proof.
  split; [|split; [|split]].
  - apply (proj1 (condition_info_spec 14 1 true true)). lia.
  - apply (proj1 (proj2 (condition_info_spec 14 1 true true)));
      [reflexivity | lia].
  - apply (proj1 (proj2 (proj2 (condition_info_spec 14 0 true true))));
      reflexivity.
  - apply (proj2 (proj2 (proj2 (condition_info_spec 15 0 true true)))). lia.
Defined.

(** ** Shifter-operand decoder *)

Lemma shift_type_cases (t : Z) :
  0 <= t <= 3 -> t = 0 \/ t = 1 \/ t = 2 \/ t = 3.
Proof. lia. Qed.

(** The decoder reads the members [type] and [Rs] and nothing else. *)
Lemma shift_decode_reads (d : darm_t) :
  armv7_shift_decode d
  = armv7_shift_decode
      (mk_darm 0 I_INVLD T_INVLD 0 0 0 0 0 (Rs d) (type d) 0 0 0 0).
Proof. reflexivity. Qed.

(** C7: type 0 with a zero amount-register field gives no shift; type 3 with
    a zero field gives "RRX" and amount 0; types 1 and 2 with a zero field
    give their label and amount 32; every other case gives the label of the
    type and the field as amount; no 2-bit type makes the decoder fail. *)
Theorem shift_decode_spec (d : darm_t) :
  (type d = 0 -> Rs d = 0 -> armv7_shift_decode d = Some (None, 0))
  /\ (type d = 3 -> Rs d = 0 ->
        armv7_shift_decode d = Some (Some "RRX"%string, 0))
  /\ (type d = 1 -> Rs d = 0 ->
        armv7_shift_decode d = Some (Some "LSR"%string, 32))
  /\ (type d = 2 -> Rs d = 0 ->
        armv7_shift_decode d = Some (Some "ASR"%string, 32))
  /\ (0 <= type d <= 3 -> Rs d <> 0 ->
        exists label,
          array_get shift_types (type d) = Some label
          /\ armv7_shift_decode d = Some (Some label, Rs d))
  /\ (0 <= type d <= 3 -> armv7_shift_decode d <> None).
Proof.
  unfold armv7_shift_decode.
  split; [|split; [|split; [|split; [|split]]]].
  - intros -> ->. reflexivity.
  - intros -> ->. reflexivity.
  - intros -> ->. reflexivity.
  - intros -> ->. reflexivity.
  - intros Ht Hrs. apply Z.eqb_neq in Hrs. rewrite Hrs.
    rewrite !andb_false_r.
    apply shift_type_cases in Ht.
    destruct Ht as [-> | [-> | [-> | ->]]]; cbn; eexists; split; reflexivity.
  - intros Ht. apply shift_type_cases in Ht.
    destruct (Rs d =? 0);
      destruct Ht as [-> | [-> | [-> | ->]]]; cbn; discriminate.
Qed.

Lemma shift_decode_spec_witness :
  armv7_shift_decode (set_type (set_Rs d_stale 0) 0) = Some (None, 0)
  /\ armv7_shift_decode (set_type (set_Rs d_stale 0) 3)
     = Some (Some "RRX"%string, 0)
  /\ armv7_shift_decode (set_type (set_Rs d_stale 0) 1)
     = Some (Some "LSR"%string, 32)
  /\ armv7_shift_decode (set_type (set_Rs d_stale 0) 2)
     = Some (Some "ASR"%string, 32)
  /\ (exists label,
        array_get shift_types (type d_stale) = Some label
        /\ armv7_shift_decode d_stale = Some (Some label, Rs d_stale))
  /\ armv7_shift_decode d_stale <> None.
Proof.
  split; [|split; [|split; [|split; [|split]]]].
  - apply (proj1 (shift_decode_spec (set_type (set_Rs d_stale 0) 0)));
      reflexivity.
  - apply (proj1 (proj2 (shift_decode_spec (set_type (set_Rs d_stale 0) 3))));
      reflexivity.
  - apply (proj1 (proj2 (proj2
             (shift_decode_spec (set_type (set_Rs d_stale 0) 1)))));
      reflexivity.
  - apply (proj1 (proj2 (proj2 (proj2
             (shift_decode_spec (set_type (set_Rs d_stale 0) 2))))));
      reflexivity.
  - apply (proj1 (proj2 (proj2 (proj2 (proj2 (shift_decode_spec d_stale))))));
      cbn; lia.
  - apply (proj2 (proj2 (proj2 (proj2 (proj2 (shift_decode_spec d_stale))))));
      cbn; lia.
Defined.

(** C10: two records that agree on [type] and [Rs] decode to the same label
    and amount; overwriting the immediate shift amount and the
    shift-is-register flag changes nothing; and the amount reported is the
    [Rs] member, or 32 where that member is 0. *)
Theorem shift_decode_depends_on_type_Rs (d1 d2 : darm_t) :
  (type d1 = type d2 -> Rs d1 = Rs d2 ->
     armv7_shift_decode d1 = armv7_shift_decode d2)
  /\ (forall amount flag,
        armv7_shift_decode (set_shift_is_reg (set_shift d1 amount) flag)
        = armv7_shift_decode d1)
  /\ (forall label amount,
        armv7_shift_decode d1 = Some (label, amount) ->
        amount = Rs d1 \/ (Rs d1 = 0 /\ amount = 32)).
Proof.
  split; [|split].
  - intros Ht Hr. rewrite (shift_decode_reads d1), (shift_decode_reads d2).
    now rewrite Ht, Hr.
  - reflexivity.
  - intros label amount. unfold armv7_shift_decode.
    destruct (Z.eqb_spec (Rs d1) 0) as [Hr|Hr].
    + rewrite !andb_true_r.
      destruct (type d1 =? 0); [intros [= <- <-]; left; lia|].
      destruct (type d1 =? 3); [intros [= <- <-]; left; lia|].
      destruct (array_get shift_types (type d1)); [|discriminate].
      destruct (_ || _); intros [= <- <-]; [right|left]; lia.
    + rewrite !andb_false_r.
      destruct (array_get shift_types (type d1)); [|discriminate].
      intros [= <- <-]. now left.
Qed.

Lemma shift_decode_depends_on_type_Rs_witness :
  armv7_shift_decode d_stale
  = armv7_shift_decode (mk_darm 1 I_NOP T_OPLESS 0 0 0 0 0 5 2 0 31 0 0)
  /\ (5 = Rs d_stale \/ (Rs d_stale = 0 /\ 5 = 32)).
Proof.
  split.
  - apply (proj1 (shift_decode_depends_on_type_Rs d_stale
             (mk_darm 1 I_NOP T_OPLESS 0 0 0 0 0 5 2 0 31 0 0)));
      reflexivity.
  - apply (proj2 (proj2 (shift_decode_depends_on_type_Rs d_stale d_stale))
             (Some "ASR"%string) 5).
    reflexivity.
Defined.

(** ** Decoder: structure of a call *)

Ltac break_branch :=
  match goal with
  | |- context [match ?x with _ => _ end] => destruct x eqn:?
  end.

Ltac run_decoder := cbv zeta; cbn [instr_type instr set_instr set_instr_type];
  repeat (break_branch; cbn [fst snd]).

Section DecoderFacts.

Context `{hdr : darm_header}.

(** The field extractor returns 0 or -1. *)
Lemma disas_cond_ret (d : darm_t) (w : Z) :
  fst (armv7_disas_cond d w) = 0 \/ fst (armv7_disas_cond d w) = -1.
Proof.
  unfold armv7_disas_cond. run_decoder; auto.
Qed.

(** It never writes the raw word nor the condition field. *)
Lemma disas_cond_keeps_w_cond (d : darm_t) (w0 : Z) :
  w (snd (armv7_disas_cond d w0)) = w d
  /\ cond (snd (armv7_disas_cond d w0)) = cond d.
Proof.
  unfold armv7_disas_cond. run_decoder; split; reflexivity.
Qed.

(** When it fails it has written the identity and the class only. *)
Lemma disas_cond_failure_frame (d : darm_t) (w0 : Z) :
  fst (armv7_disas_cond d w0) < 0 ->
  snd (armv7_disas_cond d w0)
  = set_instr_type
      (set_instr d (instr (snd (armv7_disas_cond d w0))))
      (instr_type (snd (armv7_disas_cond d w0))).
Proof.
  unfold armv7_disas_cond. run_decoder; intros Hret;
    try (exfalso; lia); try reflexivity.
Qed.

Lemma disassemble_unconditional (d : darm_t) (w0 : Z) :
  Z.land (Z.shiftr w0 28) 15 = 15 ->
  armv7_disassemble d w0 = (-1, set_w (set_cond darm_memset0 15) w0).
Proof.
  intros Hc. unfold armv7_disassemble. cbv zeta.
  change (cond (set_w (set_cond darm_memset0 (Z.land (Z.shiftr w0 28) 15)) w0))
    with (Z.land (Z.shiftr w0 28) 15).
  rewrite Hc. reflexivity.
Qed.

Lemma disassemble_conditional (d : darm_t) (w0 : Z) :
  Z.land (Z.shiftr w0 28) 15 <> 15 ->
  armv7_disassemble d w0
  = armv7_disas_cond
      (set_w (set_cond darm_memset0 (Z.land (Z.shiftr w0 28) 15)) w0) w0.
Proof.
  intros Hc. unfold armv7_disassemble. cbv zeta.
  change (cond (set_w (set_cond darm_memset0 (Z.land (Z.shiftr w0 28) 15)) w0))
    with (Z.land (Z.shiftr w0 28) 15).
  apply Z.eqb_neq in Hc. rewrite Hc.
  destruct (armv7_disas_cond _ w0) as [ret d'] eqn:E.
  pose proof (disas_cond_ret
    (set_w (set_cond darm_memset0 (Z.land (Z.shiftr w0 28) 15)) w0) w0) as Hr.
  rewrite E in Hr. cbn in Hr. destruct Hr as [-> | ->]; reflexivity.
Qed.

End DecoderFacts.

(** ** Decoder: failure and the condition field *)

Lemma land_15_range (x : Z) : 0 <= Z.land x 15 <= 15.
Proof.
  change 15 with (Z.ones 4) at 1 2. rewrite Z.land_ones by lia.
  pose proof (Z.mod_pos_bound x (2 ^ 4) ltac:(lia)). lia.
Qed.

Section DecoderFailure.

Context `{hdr : darm_header}.

(** C6: a word whose condition field is 15 makes [armv7_disassemble] return
    -1; and whenever the call does not fail, the condition member of the
    record is the field of the word and lies in [0,14]. *)
Theorem disassemble_condition_range (d : darm_t) (w0 : Z) :
  (Z.land (Z.shiftr w0 28) 15 = 15 -> fst (armv7_disassemble d w0) = -1)
  /\ (0 <= fst (armv7_disassemble d w0) ->
        cond (snd (armv7_disassemble d w0)) = Z.land (Z.shiftr w0 28) 15
        /\ 0 <= cond (snd (armv7_disassemble d w0)) <= 14).
Proof.
  split.
  - intros Hc. now rewrite disassemble_unconditional.
  - intros Hok.
    destruct (Z.eq_dec (Z.land (Z.shiftr w0 28) 15) 15) as [Hc|Hc].
    + rewrite disassemble_unconditional in Hok by exact Hc. cbn in Hok. lia.
    + rewrite disassemble_conditional by exact Hc.
      destruct (disas_cond_keeps_w_cond
        (set_w (set_cond darm_memset0 (Z.land (Z.shiftr w0 28) 15)) w0) w0)
        as [_ ->].
      cbn [cond set_w set_cond].
      pose proof (land_15_range (Z.shiftr w0 28)). lia.
Qed.

(** C9: the result of a call does not depend on the record it is given, so
    two calls on the same word agree in return value and in every member of
    the record, whatever an earlier call on another word left behind. *)
Theorem disassemble_history_independent (d1 d2 : darm_t) (w1 w2 : Z) :
  armv7_disassemble d1 w2 = armv7_disassemble d2 w2
  /\ armv7_disassemble (snd (armv7_disassemble d1 w1)) w2
     = armv7_disassemble d1 w2.
Proof. split; reflexivity. Qed.

(** C2, as amended: a failing call returns -1 and leaves the record of the
    caller partially filled.  The record has been cleared and then holds the
    raw word and the condition field.  When the condition field is 15 the
    identity and the class are the zero enumerators the clearing left; when
    it is not, the class is the one of the table row and the identity is the
    one looked up before the failure: the sub-table identity in the
    branch-misc, no-operand and destination-source-shift classes, the
    identity of the table row otherwise.  Every operand member is 0, and
    nothing of what the record held before the call remains. *)
Theorem disassemble_failure_record (d : darm_t) (w0 : Z) :
  fst (armv7_disassemble d w0) < 0 ->
  fst (armv7_disassemble d w0) = -1
  /\ snd (armv7_disassemble d w0)
     = mk_darm w0
               (if Z.land (Z.shiftr w0 28) 15 =? 15 then instr_memset0
                else
                  match armv7_instr_types (row w0) with
                  | T_BRNCHMISC =>
                      type4_instr_lookup (Z.land (Z.shiftr w0 4) 15)
                  | T_OPLESS => type_opless_instr_lookup (Z.land w0 7)
                  | T_DST_SRC =>
                      type_shift_instr_lookup (Z.land (Z.shiftr w0 4) 15)
                  | _ => armv7_instr_labels (row w0)
                  end)
               (if Z.land (Z.shiftr w0 28) 15 =? 15 then enctype_memset0
                else armv7_instr_types (row w0))
               (Z.land (Z.shiftr w0 28) 15)
               0 0 0 0 0 0 0 0 0 0.
Proof.
  destruct (Z.eq_dec (Z.land (Z.shiftr w0 28) 15) 15) as [Hc|Hc].
  - rewrite disassemble_unconditional by exact Hc. intros _.
    rewrite Hc. split; reflexivity.
  - rewrite disassemble_conditional by exact Hc.
    apply Z.eqb_neq in Hc. rewrite Hc.
    unfold armv7_disas_cond, row.
    destruct (armv7_instr_types (Z.land (Z.shiftr w0 20) 255)) eqn:Hclass;
      cbv zeta;
      cbn [instr_type instr set_instr set_instr_type];
      rewrite ?Hclass.
    all: repeat (break_branch; cbn [fst snd]).
    all: cbn [fst snd]; intros Hret; try (exfalso; lia).
    all: split; reflexivity.
Qed.

End DecoderFailure.

(** The extractor itself keeps what it does not write: without the [memset]
    of [armv7_disassemble] a stale flags member would survive. *)
Remark disas_cond_keeps_stale_members :
  S (snd (armv7_disas_cond (hdr := arm_sample) d_stale 0xE3500000)) = 1
  /\ S (snd (armv7_disassemble (hdr := arm_sample) d_stale 0xE3500000)) = 0.
Proof. split; reflexivity. Qed.

Lemma disassemble_failure_record_witness :
  (* an invalid sub-table identity, then a condition field of 15: nothing of
     [d_stale] survives *)
  (fst (armv7_disassemble (hdr := arm_sample) d_stale 0xE1A00090) = -1
   /\ snd (armv7_disassemble (hdr := arm_sample) d_stale 0xE1A00090)
      = mk_darm 0xE1A00090 I_INVLD T_DST_SRC 14 0 0 0 0 0 0 0 0 0 0)
  /\ (fst (armv7_disassemble (hdr := arm_sample) d_stale 0xF0000000) = -1
      /\ snd (armv7_disassemble (hdr := arm_sample) d_stale 0xF0000000)
         = mk_darm 0xF0000000 I_INVLD T_INVLD 15 0 0 0 0 0 0 0 0 0 0).
Proof.
  split.
  - apply (disassemble_failure_record (hdr := arm_sample) d_stale 0xE1A00090).
    vm_compute. reflexivity.
  - apply (disassemble_failure_record (hdr := arm_sample) d_stale 0xF0000000).
    vm_compute. reflexivity.
Defined.

(** C2, as stated, fails: after a failing call on a word whose condition
    field is 15 the record of the caller is no longer what it was; it holds
    the condition field 15 and the raw word. *)
Lemma disassemble_failure_exposes_record :
  fst (armv7_disassemble (hdr := arm_sample) d_stale 0xF0000000) = -1
  /\ snd (armv7_disassemble (hdr := arm_sample) d_stale 0xF0000000) <> d_stale
  /\ cond (snd (armv7_disassemble (hdr := arm_sample) d_stale 0xF0000000)) = 15
  /\ w (snd (armv7_disassemble (hdr := arm_sample) d_stale 0xF0000000))
     = 0xF0000000.
Proof.
  repeat split; try reflexivity. vm_compute. discriminate.
Qed.

Lemma disassemble_condition_range_witness :
  fst (armv7_disassemble (hdr := arm_sample) d_stale 0xF28F0004) = -1
  /\ cond (snd (armv7_disassemble (hdr := arm_sample) d_stale 0xE28F0004)) = 14
  /\ 0 <= cond (snd (armv7_disassemble (hdr := arm_sample) d_stale 0xE28F0004))
     <= 14.
Proof.
  split.
  - apply (proj1 (disassemble_condition_range (hdr := arm_sample)
                    d_stale 0xF28F0004)).
    reflexivity.
  - apply (proj2 (disassemble_condition_range (hdr := arm_sample)
                    d_stale 0xE28F0004)).
    vm_compute. discriminate.
Defined.

(** ** Decoder: the rewrite rules *)

Lemma instr_eqb_eq (a b : armv7_instr_t) : instr_eqb a b = true <-> a = b.
Proof.
  unfold instr_eqb. destruct (instr_eq_dec a b); split; congruence.
Qed.

Lemma instr_eqb_neq (a b : armv7_instr_t) : instr_eqb a b = false <-> a <> b.
Proof.
  unfold instr_eqb. destruct (instr_eq_dec a b); split; congruence.
Qed.

Lemma instr_eqb_refl (a : armv7_instr_t) : instr_eqb a a = true.
Proof. now apply instr_eqb_eq. Qed.

Lemma land_BITMSK_24 (x : Z) : Z.land x BITMSK_24 = x mod 2 ^ 24.
Proof. change BITMSK_24 with (Z.ones 24). apply Z.land_ones. lia. Qed.

Lemma land_1_testbit (x n : Z) :
  0 <= n -> Z.land (Z.shiftr x n) 1 = Z.b2z (Z.testbit x n).
Proof.
  intros Hn. change 1 with (Z.ones 1). rewrite Z.land_ones by lia.
  change (2 ^ 1) with 2. rewrite <- Z.bit0_mod, Z.shiftr_spec by lia.
  now rewrite Z.add_0_l.
Qed.

(** Setting the top eight bits of a 24-bit field adds [0xff000000]. *)
Lemma lor_top_byte (f : Z) :
  0 <= f < 2 ^ 24 -> Z.lor f 0xff000000 = f + 0xff000000.
Proof.
  intros Hf. rewrite <- Zbitwise.Z.add_lor_land.
  replace (Z.land f 0xff000000) with 0; [lia|].
  rewrite <- (Z.mod_small f (2 ^ 24)) by lia.
  rewrite <- Z.land_ones, <- Z.land_assoc by lia. cbn.
  now rewrite Z.land_0_r.
Qed.

Lemma testbit_23_field (f : Z) :
  0 <= f < 2 ^ 24 -> Z.testbit f 23 = (2 ^ 23 <=? f).
Proof.
  intros Hf. rewrite Z.testbit_eqb by lia.
  destruct (Z.leb_spec (2 ^ 23) f) as [Hge|Hlt].
  - replace (f / 2 ^ 23) with 1; [reflexivity|].
    apply Z.div_unique with (r := f - 2 ^ 23); lia.
  - rewrite Z.div_small by lia. reflexivity.
Qed.

Ltac members :=
  cbn [fst snd w instr instr_type cond S Rd Rn Rm Rs type shift_is_reg shift
       imm add set_w set_instr set_instr_type set_cond set_S set_Rd set_Rn
       set_Rm set_Rs set_type set_shift_is_reg set_shift set_imm set_add].

Section DecoderRewrites.

Context `{hdr : darm_header}.

(** C3: in the arithmetic-with-immediate class, when the identity of the
    table is add or subtract, bit 20 is clear and bits 19-16 are the program
    counter, the record carries the identity ADR, base register 0 and
    [add] = bit 23; in every other case of the class the identity of the
    table and the extracted base register are kept.  The 12-bit immediate is
    the low twelve bits of the word in both cases. *)
Theorem arith_imm_adr_rewrite (d : darm_t) (w0 : Z) :
  Z.land (Z.shiftr w0 28) 15 <> 15 ->
  armv7_instr_types (row w0) = T_ARITH_IMM ->
  let r := armv7_disassemble d w0 in
  let is_adr :=
    (armv7_instr_labels (row w0) = I_ADD \/ armv7_instr_labels (row w0) = I_SUB)
    /\ Z.land (Z.shiftr w0 20) 1 = 0
    /\ Z.land (Z.shiftr w0 16) 15 = PC in
  fst r = 0
  /\ imm (snd r) = Z.land w0 0xfff
  /\ (is_adr ->
        instr (snd r) = I_ADR /\ Rn (snd r) = 0
        /\ add (snd r) = Z.land (Z.shiftr w0 23) 1)
  /\ (~ is_adr ->
        instr (snd r) = armv7_instr_labels (row w0)
        /\ Rn (snd r) = Z.land (Z.shiftr w0 16) 15).
Proof.
  intros Hc Hclass r is_adr. subst r.
  rewrite disassemble_conditional by exact Hc.
  unfold armv7_disas_cond. cbv zeta. members.
  fold (row w0). rewrite Hclass. members.
  destruct (((instr_eqb (armv7_instr_labels (row w0)) I_ADD
              || instr_eqb (armv7_instr_labels (row w0)) I_SUB)
             && (Z.land (Z.shiftr w0 20) 1 =? 0)
             && (Z.land (Z.shiftr w0 16) 15 =? PC))%bool) eqn:Htest; members.
  - split; [reflexivity | split; [reflexivity | split]].
    + intros _. repeat split; reflexivity.
    + intros Hno. exfalso. apply Hno.
      apply andb_true_iff in Htest. destruct Htest as [Htest Hpc].
      apply andb_true_iff in Htest. destruct Htest as [Hid Hs].
      apply orb_true_iff in Hid. rewrite !instr_eqb_eq in Hid.
      apply Z.eqb_eq in Hs, Hpc. unfold is_adr. tauto.
  - split; [reflexivity | split; [reflexivity | split]].
    + intros (Hid & Hs & Hpc). exfalso.
      apply Z.eqb_eq in Hs, Hpc. rewrite Hs, Hpc, !andb_true_r in Htest.
      apply orb_false_iff in Htest. rewrite !instr_eqb_neq in Htest. tauto.
    + intros _. split; reflexivity.
Qed.

(** C4: in the branch class, when the identity is not the supervisor call,
    the 24-bit field is sign-extended from bit 23 and multiplied by four in
    32 bits: with bit 23 set the member [imm] is the 32-bit pattern of
    [4 * (field - 2^24)], a negative multiple of 4 when read as [int32_t];
    with bit 23 clear it is [4 * field]; for the supervisor call it is the
    field itself. *)
Theorem branch_immediate (d : darm_t) (w0 : Z) :
  Z.land (Z.shiftr w0 28) 15 <> 15 ->
  armv7_instr_types (row w0) = T_BRNCHSC ->
  let r := armv7_disassemble d w0 in
  let field := Z.land w0 0xffffff in
  fst r = 0
  /\ (armv7_instr_labels (row w0) <> I_SVC -> Z.testbit field 23 = true ->
        imm (snd r) = u32 (4 * (field - 2 ^ 24))
        /\ to_int32 (imm (snd r)) = 4 * (field - 2 ^ 24)
        /\ to_int32 (imm (snd r)) < 0
        /\ to_int32 (imm (snd r)) mod 4 = 0)
  /\ (armv7_instr_labels (row w0) <> I_SVC -> Z.testbit field 23 = false ->
        imm (snd r) = 4 * field
        /\ to_int32 (imm (snd r)) = 4 * field)
  /\ (armv7_instr_labels (row w0) = I_SVC -> imm (snd r) = field).
Proof.
  intros Hc Hclass r field. subst r.
  rewrite disassemble_conditional by exact Hc.
  unfold armv7_disas_cond. cbv zeta. members.
  fold (row w0). rewrite Hclass. members.
  change (Z.land w0 BITMSK_24) with field.
  assert (Hf : 0 <= field < 2 ^ 24).
  { unfold field. change 0xffffff with BITMSK_24. rewrite land_BITMSK_24.
    apply Z.mod_pos_bound. lia. }
  rewrite land_1_testbit by lia.
  destruct (instr_eq_dec (armv7_instr_labels (row w0)) I_SVC) as [Hsvc|Hsvc].
  - rewrite Hsvc, instr_eqb_refl. members.
    split; [reflexivity|]. repeat split; intros; congruence.
  - apply instr_eqb_neq in Hsvc. rewrite Hsvc. cbn [negb].
    apply instr_eqb_neq in Hsvc.
    destruct (Z.testbit field 23) eqn:Hbit; cbn [Z.b2z Z.eqb negb]; members.
    + rewrite testbit_23_field in Hbit by exact Hf. apply Z.leb_le in Hbit.
      assert (Himm : u32 (Z.shiftl (Z.lor field 0xff000000) 2)
                     = 4 * (field - 2 ^ 24) + 2 ^ 32).
      { rewrite lor_top_byte by exact Hf.
        rewrite Z.shiftl_mul_pow2 by lia. unfold u32.
        symmetry. apply Z.mod_unique_pos with (q := 3); lia. }
      split; [reflexivity|]. split; [|split; intros; congruence].
      intros _ _. rewrite Himm.
      split.
      { unfold u32. apply Z.mod_unique_pos with (q := -1); lia. }
      assert (Hint : to_int32 (4 * (field - 2 ^ 24) + 2 ^ 32)
                     = 4 * (field - 2 ^ 24)).
      { unfold to_int32.
        destruct (Z.ltb_spec (4 * (field - 2 ^ 24) + 2 ^ 32) (2 ^ 31)); lia. }
      rewrite Hint. split; [reflexivity|]. split; [lia|].
      rewrite Z.mul_comm. apply Z.mod_mul. lia.
    + rewrite testbit_23_field in Hbit by exact Hf. apply Z.leb_gt in Hbit.
      assert (Himm : u32 (Z.shiftl field 2) = 4 * field).
      { rewrite Z.shiftl_mul_pow2 by lia. unfold u32.
        rewrite Z.mod_small; lia. }
      split; [reflexivity|]. split; [intros; congruence|].
      split; [|intros; congruence].
      intros _ _. rewrite Himm. split; [reflexivity|].
      unfold to_int32. destruct (Z.ltb_spec (4 * field) (2 ^ 31)); lia.
Qed.

End DecoderRewrites.

Lemma arith_imm_adr_rewrite_witness :
  (* ADD r0, pc, #4 *)
  fst (armv7_disassemble (hdr := arm_sample) d_stale 0xE28F0004) = 0
  /\ instr (snd (armv7_disassemble (hdr := arm_sample) d_stale 0xE28F0004))
     = I_ADR
  /\ Rn (snd (armv7_disassemble (hdr := arm_sample) d_stale 0xE28F0004)) = 0
  /\ add (snd (armv7_disassemble (hdr := arm_sample) d_stale 0xE28F0004)) = 1
  (* ADDS r0, pc, #4 *)
  /\ instr (snd (armv7_disassemble (hdr := arm_sample) d_stale 0xE29F0004))
     = I_ADD
  /\ Rn (snd (armv7_disassemble (hdr := arm_sample) d_stale 0xE29F0004)) = 15.
Proof.
  assert (Hc : forall x, x = 14 -> x <> 15) by (intros x ->; discriminate).
  destruct (arith_imm_adr_rewrite (hdr := arm_sample) d_stale 0xE28F0004
              (Hc _ eq_refl) eq_refl) as (Hret & _ & Hadr & _).
  destruct (arith_imm_adr_rewrite (hdr := arm_sample) d_stale 0xE29F0004
              (Hc _ eq_refl) eq_refl) as (_ & _ & _ & Hkeep).
  destruct Hadr as (Hi & Hn & Ha).
  { split; [left; reflexivity | split; reflexivity]. }
  destruct Hkeep as (Hi' & Hn').
  { intros (_ & Hs & _). discriminate Hs. }
  repeat split; assumption.
Defined.

Lemma branch_immediate_witness :
  (* B with field 0xfffffe, B with field 2, SVC 0x80 *)
  imm (snd (armv7_disassemble (hdr := arm_sample) d_stale 0xEAFFFFFE))
    = 0xFFFFFFF8
  /\ to_int32
       (imm (snd (armv7_disassemble (hdr := arm_sample) d_stale 0xEAFFFFFE)))
     = -8
  /\ imm (snd (armv7_disassemble (hdr := arm_sample) d_stale 0xEA000002)) = 8
  /\ imm (snd (armv7_disassemble (hdr := arm_sample) d_stale 0xEF000080))
     = 0x80.
Proof.
  assert (Hc : forall x, x = 14 -> x <> 15) by (intros x ->; discriminate).
  destruct (branch_immediate (hdr := arm_sample) d_stale 0xEAFFFFFE
              (Hc _ eq_refl) eq_refl) as (_ & Hneg & _ & _).
  destruct (branch_immediate (hdr := arm_sample) d_stale 0xEA000002
              (Hc _ eq_refl) eq_refl) as (_ & _ & Hpos & _).
  destruct (branch_immediate (hdr := arm_sample) d_stale 0xEF000080
              (Hc _ eq_refl) eq_refl) as (_ & _ & _ & Hsvc).
  destruct Hneg as (Hn1 & Hn2 & _); [discriminate | reflexivity |].
  destruct Hpos as (Hp1 & _); [discriminate | reflexivity |].
  specialize (Hsvc eq_refl).
  repeat split; assumption.
Defined.

Section DecoderAliases.

Context `{hdr : darm_header}.

(** C5: in the destination-source-shift class, a sub-table identity that is
    invalid makes the call fail.  With an immediate shift (bit 4 clear): a
    logical-left-shift identity with shift type 0 and shift amount 0 becomes
    the move identity, and the no-op identity when the destination register
    equals the operand register; a rotate-right identity with shift type 3
    and shift amount 0 becomes rotate-right-with-extend. *)
Theorem dst_src_aliases (d : darm_t) (w0 : Z) :
  Z.land (Z.shiftr w0 28) 15 <> 15 ->
  armv7_instr_types (row w0) = T_DST_SRC ->
  let r := armv7_disassemble d w0 in
  let sub := type_shift_instr_lookup (Z.land (Z.shiftr w0 4) 15) in
  (sub = I_INVLD -> fst r = -1)
  /\ (Z.land (Z.shiftr w0 4) 1 = 0 -> sub = I_LSL ->
      Z.land (Z.shiftr w0 5) 3 = 0 -> Z.land (Z.shiftr w0 7) 31 = 0 ->
        fst r = 0
        /\ Rd (snd r) = Z.land (Z.shiftr w0 12) 15
        /\ Rm (snd r) = Z.land w0 15
        /\ instr (snd r) = if Rd (snd r) =? Rm (snd r) then I_NOP else I_MOV)
  /\ (Z.land (Z.shiftr w0 4) 1 = 0 -> sub = I_ROR ->
      Z.land (Z.shiftr w0 5) 3 = 3 -> Z.land (Z.shiftr w0 7) 31 = 0 ->
        fst r = 0 /\ instr (snd r) = I_RRX).
Proof.
  intros Hc Hclass r sub. subst r.
  rewrite disassemble_conditional by exact Hc.
  unfold armv7_disas_cond. cbv zeta. members.
  fold (row w0). rewrite Hclass. members. fold sub.
  split; [|split].
  - intros ->. cbn [instr_eqb negb]. reflexivity.
  - intros Hb4 Hsub Hty Hsh. rewrite Hsub, Hb4, Hty, Hsh.
    cbn [Z.eqb negb andb]. members.
    change (instr_eqb I_LSL I_INVLD) with false.
    change (instr_eqb I_LSL I_LSL) with true. cbn [negb andb]. members.
    destruct (Z.land (Z.shiftr w0 12) 15 =? Z.land w0 15) eqn:Hreg; members;
      rewrite Hreg; repeat split; reflexivity.
  - intros Hb4 Hsub Hty Hsh. rewrite Hsub, Hb4, Hty, Hsh.
    cbn [Z.eqb negb andb]. members.
    change (instr_eqb I_ROR I_INVLD) with false.
    change (instr_eqb I_ROR I_LSL) with false.
    change (instr_eqb I_ROR I_ROR) with true.
    cbn [negb andb Z.eqb Pos.eqb]. members. split; reflexivity.
Qed.

End DecoderAliases.

Lemma dst_src_aliases_witness :
  (* bits 7-4 = 9: not a shift; MOV r0, r0; MOV r0, r1; RRX r0, r1 *)
  fst (armv7_disassemble (hdr := arm_sample) d_stale 0xE1A00090) = -1
  /\ instr (snd (armv7_disassemble (hdr := arm_sample) d_stale 0xE1A00000))
     = I_NOP
  /\ instr (snd (armv7_disassemble (hdr := arm_sample) d_stale 0xE1A00001))
     = I_MOV
  /\ instr (snd (armv7_disassemble (hdr := arm_sample) d_stale 0xE1A00061))
     = I_RRX.
Proof.
  assert (Hc : forall x, x = 14 -> x <> 15) by (intros x ->; discriminate).
  destruct (dst_src_aliases (hdr := arm_sample) d_stale 0xE1A00090
              (Hc _ eq_refl) eq_refl) as (Hinv & _ & _).
  destruct (dst_src_aliases (hdr := arm_sample) d_stale 0xE1A00000
              (Hc _ eq_refl) eq_refl) as (_ & Hnop & _).
  destruct (dst_src_aliases (hdr := arm_sample) d_stale 0xE1A00001
              (Hc _ eq_refl) eq_refl) as (_ & Hmov & _).
  destruct (dst_src_aliases (hdr := arm_sample) d_stale 0xE1A00061
              (Hc _ eq_refl) eq_refl) as (_ & _ & Hrrx).
  specialize (Hinv eq_refl).
  destruct (Hnop eq_refl eq_refl eq_refl eq_refl) as (_ & _ & _ & Hn).
  destruct (Hmov eq_refl eq_refl eq_refl eq_refl) as (_ & _ & _ & Hm).
  destruct (Hrrx eq_refl eq_refl eq_refl eq_refl) as (_ & Hr).
  repeat split; assumption.
Defined.

(** * Further properties of the code *)

(** ** Condition registry: the two lookups together *)

(** Looking up the suffix of a condition field and then its index gives the
    field back, with or without the omit-always mode. *)
Theorem condition_info_index_roundtrip (flag omit : Z) (wi wf : bool) :
  0 <= flag <= 14 ->
  armv7_condition_index (info_ret (armv7_condition_info flag wi wf omit))
  = flag.
Proof.
  intros Hflag. apply condition_flag_cases in Hflag. cbn in Hflag.
  unfold armv7_condition_info.
  destruct (Z.eqb_spec omit 0) as [Ho|Ho];
    repeat (destruct Hflag as [<-|Hflag]; [reflexivity|]);
    contradiction.
Qed.

Lemma condition_info_index_roundtrip_witness :
  armv7_condition_index (info_ret (armv7_condition_info 14 true false 1)) = 14
  /\ armv7_condition_index (info_ret (armv7_condition_info 2 false true 0))
     = 2.
Proof.
  split.
  - apply (condition_info_index_roundtrip 14 1 true false). lia.
  - apply (condition_info_index_roundtrip 2 0 false true). lia.
Defined.

(** A non-empty text that the reverse lookup maps into [0,14] is the suffix
    the forward lookup returns for that field. *)
Theorem condition_index_info_roundtrip (code : string) (k : Z) (wi wf : bool) :
  armv7_condition_index (Some code) = k ->
  0 <= k <= 14 ->
  code <> EmptyString ->
  info_ret (armv7_condition_info k wi wf 0) = Some code.
Proof.
  intros Hk Hrange Hne.
  destruct code as [|c rest]; [congruence|].
  cbn [armv7_condition_index] in Hk.
  destruct (condition_index_loop_found _ _ 0 k Hk ltac:(lia) ltac:(lia))
    as (e & Hnth & He & _).
  rewrite Z.sub_0_r in Hnth.
  unfold armv7_condition_info, array_get.
  destruct (Z.ltb_spec k 0); [lia|]. destruct (Z.gtb_spec k 14); [lia|].
  cbn [orb]. rewrite Hnth. cbn [Z.eqb negb andb info_ret].
  now rewrite He.
Qed.

Lemma condition_index_info_roundtrip_witness :
  info_ret (armv7_condition_info 11 true true 0) = Some "LT"%string.
Proof.
  apply (condition_index_info_roundtrip "LT" 11 true true).
  - reflexivity.
  - lia.
  - discriminate.
Defined.

Lemma index_cases (k : Z) :
  0 <= k < 17 -> In k (map Z.of_nat (seq 0 17)).
Proof.
  intros H. apply in_map_iff. exists (Z.to_nat k). split; [lia|].
  apply in_seq. lia.
Qed.

(** The reverse lookup returns -1, a condition field in [0,14], or the table
    position of an alias: 15 for "HS" alone and 16 for "LO" alone. *)
Theorem condition_index_range (condition_code : option string) :
  armv7_condition_index condition_code = -1
  \/ 0 <= armv7_condition_index condition_code <= 14
  \/ (armv7_condition_index condition_code = 15
      /\ condition_code = Some "HS"%string)
  \/ (armv7_condition_index condition_code = 16
      /\ condition_code = Some "LO"%string).
Proof.
  destruct condition_code as [[|c rest]|]; [right; left; cbn; lia | | now left].
  cbn [armv7_condition_index].
  remember (condition_index_loop (String c rest) g_condition_codes 0) as k
    eqn:Hk.
  symmetry in Hk.
  destruct (Z.eq_dec k (-1)) as [Hm|Hm]; [now left|]. right.
  destruct (condition_index_loop_found _ _ 0 k Hk Hm ltac:(lia))
    as (e & Hnth & He & Hle).
  rewrite Z.sub_0_r in Hnth.
  assert (Hlt : (Z.to_nat k < 17)%nat).
  { change 17%nat with (List.length g_condition_codes).
    apply nth_error_Some. congruence. }
  assert (Hin : In k (map Z.of_nat (seq 0 17))) by (apply index_cases; lia).
  cbn in Hin.
  repeat (destruct Hin as [<-|Hin]; [try (left; lia)|]);
    try contradiction.
  - right. left. split; [reflexivity|].
    cbn in Hnth. injection Hnth as <-. now rewrite <- He.
  - right. right. split; [reflexivity|].
    cbn in Hnth. injection Hnth as <-. now rewrite <- He.
Qed.

(** ** Name accessors *)

Lemma guarded_read (bits : Z) (table : list (option string)) (i : Z) :
  32 <= bits -> ARRAYSIZE table < 2 ^ 31 -> - 2 ^ 31 <= i < 2 ^ 32 ->
  (if to_size_t bits i <? ARRAYSIZE table then array_get table i
   else Some None)
  = Some (if (0 <=? i) && (i <? ARRAYSIZE table)
          then nth (Z.to_nat i) table None else None).
Proof.
  intros Hbits Hlen Hi. unfold to_size_t.
  assert (Hpow : 2 ^ 32 <= 2 ^ bits) by (apply Z.pow_le_mono_r; lia).
  destruct (Z.leb_spec 0 i) as [Hpos|Hneg]; cbn [andb].
  - rewrite Z.mod_small by lia.
    destruct (Z.ltb_spec i (ARRAYSIZE table)) as [Hin|Hout]; [|reflexivity].
    unfold array_get. destruct (Z.ltb_spec i 0); [lia|].
    apply nth_error_nth'. unfold ARRAYSIZE in Hin. lia.
  - replace (i mod 2 ^ bits) with (i + 2 ^ bits)
      by (apply Z.mod_unique_pos with (q := -1); lia).
    destruct (Z.ltb_spec (i + 2 ^ bits) (ARRAYSIZE table)); [lia|reflexivity].
Qed.

(** With a [size_t] of at least 32 bits and tables of fewer than 2^31
    entries, each accessor returns the entry of the table for an index
    inside it and [NULL] for every other value of the enumeration, a
    negative one included; it never reads outside its table. *)
Theorem accessors_bounds_checked (bits : Z)
    (mnemonics enctypes registers : list (option string)) (i : Z) :
  32 <= bits ->
  ARRAYSIZE mnemonics < 2 ^ 31 ->
  ARRAYSIZE enctypes < 2 ^ 31 ->
  ARRAYSIZE registers < 2 ^ 31 ->
  - 2 ^ 31 <= i < 2 ^ 32 ->
  armv7_mnemonic_by_index bits mnemonics i
  = Some (if (0 <=? i) && (i <? ARRAYSIZE mnemonics)
          then nth (Z.to_nat i) mnemonics None else None)
  /\ armv7_enctype_by_index bits enctypes i
     = Some (if (0 <=? i) && (i <? ARRAYSIZE enctypes)
             then nth (Z.to_nat i) enctypes None else None)
  /\ armv7_register_by_index bits registers i
     = Some (if (0 <=? i) && (i <? ARRAYSIZE registers)
             then nth (Z.to_nat i) registers None else None).
Proof.
  intros Hbits Hm He Hr Hi.
  unfold armv7_mnemonic_by_index, armv7_enctype_by_index,
    armv7_register_by_index.
  repeat split; now apply guarded_read.
Qed.

Lemma accessors_bounds_checked_witness :
  armv7_register_by_index 64 sample_registers 15 = Some (Some "PC"%string)
  /\ armv7_register_by_index 64 sample_registers (-1) = Some None
  /\ armv7_register_by_index 64 sample_registers 16 = Some None.
Proof.
  assert (Hlen : ARRAYSIZE sample_registers < 2 ^ 31) by reflexivity.
  assert (Hbits : 32 <= 64) by discriminate.
  destruct (accessors_bounds_checked 64 sample_registers sample_registers
              sample_registers 15 Hbits Hlen Hlen Hlen ltac:(lia))
    as (_ & _ & Hpc).
  destruct (accessors_bounds_checked 64 sample_registers sample_registers
              sample_registers (-1) Hbits Hlen Hlen Hlen ltac:(lia))
    as (_ & _ & Hneg).
  destruct (accessors_bounds_checked 64 sample_registers sample_registers
              sample_registers 16 Hbits Hlen Hlen Hlen ltac:(lia))
    as (_ & _ & Hout).
  split; [exact Hpc | split; [exact Hneg | exact Hout]].
Defined.

(** ** Decoder: ranges of the members *)

Lemma land_ones_range (x n : Z) :
  0 <= n -> 0 <= Z.land x (Z.ones n) < 2 ^ n.
Proof.
  intros Hn. rewrite Z.land_ones by exact Hn. apply Z.mod_pos_bound. lia.
Qed.

Lemma land_1_range (x : Z) : 0 <= Z.land x 1 <= 1.
Proof. pose proof (land_ones_range x 1 ltac:(lia)) as H. cbn in H. lia. Qed.

Lemma land_3_range (x : Z) : 0 <= Z.land x 3 <= 3.
Proof. pose proof (land_ones_range x 2 ltac:(lia)) as H. cbn in H. lia. Qed.

Lemma land_31_range (x : Z) : 0 <= Z.land x 31 <= 31.
Proof. pose proof (land_ones_range x 5 ltac:(lia)) as H. cbn in H. lia. Qed.

Lemma land_BITMSK_12_range (x : Z) : 0 <= Z.land x BITMSK_12 < 2 ^ 12.
Proof. exact (land_ones_range x 12 ltac:(lia)). Qed.

Lemma land_BITMSK_24_range (x : Z) : 0 <= Z.land x BITMSK_24 < 2 ^ 24.
Proof. exact (land_ones_range x 24 ltac:(lia)). Qed.

Lemma u32_range (x : Z) : 0 <= u32 x < 2 ^ 32.
Proof. apply Z.mod_pos_bound. lia. Qed.

(** A field below [2^n] and a value shifted left by [n] share no bit. *)
Lemma lor_shiftl_disjoint (a x n : Z) :
  0 <= n -> 0 <= a < 2 ^ n ->
  Z.lor a (Z.shiftl x n) = a + x * 2 ^ n.
Proof.
  intros Hn Ha. rewrite <- Zbitwise.Z.add_lor_land.
  rewrite Z.shiftl_mul_pow2 by exact Hn.
  replace (Z.land a (x * 2 ^ n)) with 0; [lia|].
  symmetry. apply Z.bits_inj'. intros m Hm.
  rewrite Z.land_spec, Z.bits_0.
  destruct (Z.lt_ge_cases m n) as [Hlow|Hhigh].
  - rewrite Z.mul_pow2_bits_low by exact Hlow. apply andb_false_r.
  - rewrite <- (Z.mod_small a (2 ^ n)) by exact Ha.
    rewrite Z.mod_pow2_bits_high by lia. reflexivity.
Qed.

(** The immediate of the wide moves: four high bits above twelve low bits. *)
Lemma wide_immediate (w0 : Z) :
  Z.lor (Z.land w0 BITMSK_12)
        (u32 (Z.shiftl (Z.land (Z.shiftr w0 16) 15) 12))
  = Z.land (Z.shiftr w0 16) 15 * 2 ^ 12 + Z.land w0 BITMSK_12.
Proof.
  pose proof (land_15_range (Z.shiftr w0 16)) as Hhi.
  pose proof (land_BITMSK_12_range w0) as Hlo.
  replace (u32 (Z.shiftl (Z.land (Z.shiftr w0 16) 15) 12))
    with (Z.shiftl (Z.land (Z.shiftr w0 16) 15) 12).
  - rewrite lor_shiftl_disjoint by lia. lia.
  - unfold u32. rewrite Z.shiftl_mul_pow2 by lia.
    rewrite Z.mod_small; lia.
Qed.

(** The immediate of the breakpoint: twelve high bits above four low bits. *)
Lemma bkpt_immediate_value (w0 : Z) :
  u32 (Z.shiftl (Z.land (Z.shiftr w0 8) BITMSK_12) 4 + Z.land w0 15)
  = Z.land (Z.shiftr w0 8) BITMSK_12 * 2 ^ 4 + Z.land w0 15.
Proof.
  pose proof (land_15_range w0) as Hlo.
  pose proof (land_BITMSK_12_range (Z.shiftr w0 8)) as Hhi.
  unfold u32. rewrite Z.shiftl_mul_pow2 by lia. rewrite Z.mod_small; lia.
Qed.

Ltac land_bounds :=
  repeat match goal with
  | |- context [Z.land ?x 1] =>
      lazymatch goal with
      | _ : 0 <= Z.land x 1 <= 1 |- _ => fail
      | _ => pose proof (land_1_range x)
      end
  | |- context [Z.land ?x 3] =>
      lazymatch goal with
      | _ : 0 <= Z.land x 3 <= 3 |- _ => fail
      | _ => pose proof (land_3_range x)
      end
  | |- context [Z.land ?x 15] =>
      lazymatch goal with
      | _ : 0 <= Z.land x 15 <= 15 |- _ => fail
      | _ => pose proof (land_15_range x)
      end
  | |- context [Z.land ?x 31] =>
      lazymatch goal with
      | _ : 0 <= Z.land x 31 <= 31 |- _ => fail
      | _ => pose proof (land_31_range x)
      end
  | |- context [Z.land ?x BITMSK_12] =>
      lazymatch goal with
      | _ : 0 <= Z.land x BITMSK_12 < 2 ^ 12 |- _ => fail
      | _ => pose proof (land_BITMSK_12_range x)
      end
  | |- context [Z.land ?x BITMSK_24] =>
      lazymatch goal with
      | _ : 0 <= Z.land x BITMSK_24 < 2 ^ 24 |- _ => fail
      | _ => pose proof (land_BITMSK_24_range x)
      end
  | |- context [u32 ?x] =>
      lazymatch goal with
      | _ : 0 <= u32 x < 2 ^ 32 |- _ => fail
      | _ => pose proof (u32_range x)
      end
  end.

(** Splits a statement on [armv7_disassemble] into the unconditional word,
    where nothing is decoded, and the run of the field extractor. *)
Ltac by_decoder d w0 :=
  let Hc := fresh "Hc" in
  destruct (Z.eq_dec (Z.land (Z.shiftr w0 28) 15) 15) as [Hc|Hc];
  [ rewrite !(disassemble_unconditional d w0 Hc)
  | rewrite !(disassemble_conditional d w0 Hc);
    unfold armv7_disas_cond; run_decoder ];
  unfold darm_memset0; members.

Section DecoderRanges.

Context `{hdr : darm_header}.

(** Whatever the word and the outcome, the record holds the word itself,
    a condition field in [0,15], one-bit flags, 4-bit register indices, a
    2-bit shift type, a 5-bit shift amount and an immediate of 32 bits. *)
Theorem disassemble_members_in_range (d : darm_t) (w0 : Z) :
  let d' := snd (armv7_disassemble d w0) in
  w d' = w0
  /\ cond d' = Z.land (Z.shiftr w0 28) 15
  /\ 0 <= cond d' <= 15
  /\ 0 <= S d' <= 1
  /\ 0 <= Rd d' <= 15 /\ 0 <= Rn d' <= 15
  /\ 0 <= Rm d' <= 15 /\ 0 <= Rs d' <= 15
  /\ 0 <= type d' <= 3
  /\ 0 <= shift_is_reg d' <= 1
  /\ 0 <= shift d' <= 31
  /\ 0 <= imm d' < 2 ^ 32
  /\ 0 <= add d' <= 1.
Proof.
  cbv zeta. by_decoder d w0; try rewrite wide_immediate;
    land_bounds; repeat split; try reflexivity; try lia.
Qed.

End DecoderRanges.

(** ** Decoder: the shifter operand of a decoded record *)

Ltac members_everywhere :=
  cbn [fst snd w instr instr_type cond S Rd Rn Rm Rs type shift_is_reg shift
       imm add set_w set_instr set_instr_type set_cond set_S set_Rd set_Rn
       set_Rm set_Rs set_type set_shift_is_reg set_shift set_imm set_add]
    in *.

(** Turns the recorded outcomes of the tests of the decoder into
    propositions. *)
Ltac test_outcomes :=
  repeat match goal with
  | H : negb _ = true |- _ => apply negb_true_iff in H
  | H : negb _ = false |- _ => apply negb_false_iff in H
  | H : (_ =? _) = true |- _ => apply Z.eqb_eq in H
  | H : (_ =? _) = false |- _ => apply Z.eqb_neq in H
  | H : (_ && _)%bool = true |- _ => apply andb_true_iff in H; destruct H
  | H : instr_eqb _ _ = true |- _ => apply instr_eqb_eq in H
  | H : instr_eqb _ _ = false |- _ => apply instr_eqb_neq in H
  end.

Lemma shift_decode_in_range (d : darm_t) :
  0 <= type d <= 3 -> 0 <= Rs d <= 15 ->
  exists label amount,
    armv7_shift_decode d = Some (label, amount)
    /\ (0 <= amount <= 15 \/ amount = 32).
Proof.
  intros Ht Hr. unfold armv7_shift_decode.
  apply shift_type_cases in Ht.
  destruct (Z.eqb_spec (Rs d) 0) as [H0|H0];
    destruct Ht as [-> | [-> | [-> | ->]]]; cbn;
    eexists _, _; (split; [reflexivity | lia]).
Qed.

Section DecoderShifter.

Context `{hdr : darm_header}.

Lemma decoded_type_Rs_range (d : darm_t) (w0 : Z) :
  0 <= type (snd (armv7_disassemble d w0)) <= 3
  /\ 0 <= Rs (snd (armv7_disassemble d w0)) <= 15.
Proof.
  by_decoder d w0; land_bounds; lia.
Qed.

(** The shifter-operand decoder never fails on a record that
    [armv7_disassemble] has written, whatever the word and the outcome of the
    decode; the amount it reports is at most 15, or 32. *)
Theorem shift_decode_after_disassemble (d : darm_t) (w0 : Z) :
  exists label amount,
    armv7_shift_decode (snd (armv7_disassemble d w0)) = Some (label, amount)
    /\ (0 <= amount <= 15 \/ amount = 32).
Proof.
  destruct (decoded_type_Rs_range d w0) as [Ht Hr].
  now apply shift_decode_in_range.
Qed.

(** A record never holds both a shift register and a shift amount.  A
    non-zero [Rs] comes from bits 11-8 of a word of the two register
    arithmetic classes with bit 4 set; a non-zero [shift] comes from bits
    11-7 of a word with bit 4 clear. *)
Theorem shift_register_excludes_amount (d : darm_t) (w0 : Z) :
  let d' := snd (armv7_disassemble d w0) in
  (Rs d' <> 0 ->
     shift d' = 0 /\ shift_is_reg d' = 1
     /\ Rs d' = Z.land (Z.shiftr w0 8) 15
     /\ (instr_type d' = T_ARITH_SHIFT \/ instr_type d' = T_CMP_OP))
  /\ (shift d' <> 0 ->
        Rs d' = 0 /\ shift_is_reg d' = 0
        /\ shift d' = Z.land (Z.shiftr w0 7) 31
        /\ Z.land (Z.shiftr w0 4) 1 = 0).
Proof.
  cbv zeta. by_decoder d w0; members_everywhere; test_outcomes;
    (split; intros Hnz; [try (exfalso; apply Hnz; reflexivity)
                        |try (exfalso; apply Hnz; reflexivity)]).
  all: land_bounds.
  all: try (repeat split; solve [reflexivity | lia | auto]).
Qed.

(** In the two register arithmetic classes, a word with an immediate shift
    (bit 4 clear) leaves [Rs] at 0, so the shifter-operand decoder reports
    what the shift type alone gives and never the shift amount of
    bits 11-7, which the record holds in [shift]. *)
Theorem immediate_shift_not_reported (d : darm_t) (w0 : Z) :
  Z.land (Z.shiftr w0 28) 15 <> 15 ->
  armv7_instr_types (row w0) = T_ARITH_SHIFT
  \/ armv7_instr_types (row w0) = T_CMP_OP ->
  Z.land (Z.shiftr w0 4) 1 = 0 ->
  let d' := snd (armv7_disassemble d w0) in
  shift d' = Z.land (Z.shiftr w0 7) 31
  /\ Rs d' = 0
  /\ armv7_shift_decode d'
     = Some (match Z.land (Z.shiftr w0 5) 3 with
             | 0 => (None, 0)
             | 1 => (Some "LSR"%string, 32)
             | 2 => (Some "ASR"%string, 32)
             | _ => (Some "RRX"%string, 0)
             end).
Proof.
  intros Hc Hclass Hb4 d'. subst d'.
  rewrite disassemble_conditional by exact Hc.
  unfold armv7_disas_cond. cbv zeta. members. fold (row w0).
  destruct Hclass as [-> | ->]; members; rewrite Hb4; cbn [Z.eqb negb];
    members; unfold armv7_shift_decode, darm_memset0; members.
  all: split; [reflexivity | split; [reflexivity|]].
  all: pose proof (land_3_range (Z.shiftr w0 5)) as Ht.
  all: apply shift_type_cases in Ht.
  all: destruct Ht as [-> | [-> | [-> | ->]]]; reflexivity.
Qed.

(** Members outside the field set of the class of a record are 0: each class
    leaves what it does not extract as [memset] left it.  The compare classes
    leave [S] and [Rd] at 0, the destination-source-shift class leaves
    [shift_is_reg] at 0, and [add] is non-zero on an ADR record only. *)
Theorem unused_members_stay_zero (d : darm_t) (w0 : Z) :
  let d' := snd (armv7_disassemble d w0) in
  (instr_type d' = T_ARITH_SHIFT -> imm d' = 0 /\ add d' = 0)
  /\ (instr_type d' = T_ARITH_IMM ->
        Rm d' = 0 /\ Rs d' = 0 /\ type d' = 0 /\ shift_is_reg d' = 0
        /\ shift d' = 0)
  /\ (instr_type d' = T_BRNCHSC ->
        S d' = 0 /\ Rd d' = 0 /\ Rn d' = 0 /\ Rm d' = 0 /\ Rs d' = 0
        /\ type d' = 0 /\ shift_is_reg d' = 0 /\ shift d' = 0 /\ add d' = 0)
  /\ (instr_type d' = T_BRNCHMISC ->
        S d' = 0 /\ Rd d' = 0 /\ Rs d' = 0 /\ type d' = 0
        /\ shift_is_reg d' = 0 /\ shift d' = 0 /\ add d' = 0)
  /\ (instr_type d' = T_MOV_IMM ->
        Rn d' = 0 /\ Rm d' = 0 /\ Rs d' = 0 /\ type d' = 0
        /\ shift_is_reg d' = 0 /\ shift d' = 0 /\ add d' = 0)
  /\ (instr_type d' = T_CMP_OP ->
        S d' = 0 /\ Rd d' = 0 /\ imm d' = 0 /\ add d' = 0)
  /\ (instr_type d' = T_CMP_IMM ->
        S d' = 0 /\ Rd d' = 0 /\ Rm d' = 0 /\ Rs d' = 0 /\ type d' = 0
        /\ shift_is_reg d' = 0 /\ shift d' = 0 /\ add d' = 0)
  /\ (instr_type d' = T_OPLESS ->
        S d' = 0 /\ Rd d' = 0 /\ Rn d' = 0 /\ Rm d' = 0 /\ Rs d' = 0
        /\ type d' = 0 /\ shift_is_reg d' = 0 /\ shift d' = 0 /\ imm d' = 0
        /\ add d' = 0)
  /\ (instr_type d' = T_DST_SRC ->
        Rs d' = 0 /\ shift_is_reg d' = 0 /\ imm d' = 0 /\ add d' = 0)
  /\ (add d' <> 0 -> instr d' = I_ADR /\ instr_type d' = T_ARITH_IMM).
Proof.
  cbv zeta. by_decoder d w0.
  all: repeat match goal with
       | |- _ /\ _ => split
       | |- _ -> _ => intros ?
       end.
  all: try reflexivity; try discriminate; try congruence.
Qed.

End DecoderShifter.

Lemma immediate_shift_not_reported_witness :
  (* ADD r0, r1, r2, LSL #3 *)
  shift (snd (armv7_disassemble (hdr := arm_sample_ext) d_stale 0xE0810182))
  = 3
  /\ armv7_shift_decode
       (snd (armv7_disassemble (hdr := arm_sample_ext) d_stale 0xE0810182))
     = Some (None, 0).
Proof.
  assert (Hc : forall x, x = 14 -> x <> 15) by (intros x ->; discriminate).
  destruct (immediate_shift_not_reported (hdr := arm_sample_ext) d_stale
              0xE0810182 (Hc _ eq_refl) (or_introl eq_refl) eq_refl)
    as (Hs & _ & Hd).
  split; [exact Hs | exact Hd].
Defined.

(** ** Decoder: which words fail *)

Section DecoderOutcome.

Context `{hdr : darm_header}.

(** [armv7_disassemble] returns 0 or -1, and -1 exactly when the condition
    field is 15, or the class of the row is invalid or not one of the nine,
    or the class is branch-misc and the sub-table identity is none of BKPT,
    BX, BXJ, BLX and MSR, or the class is no-operand or
    destination-source-shift and the sub-table identity is invalid. *)
Theorem disassemble_fails_iff (d : darm_t) (w0 : Z) :
  (fst (armv7_disassemble d w0) = 0 \/ fst (armv7_disassemble d w0) = -1)
  /\ (fst (armv7_disassemble d w0) = -1 <->
      Z.land (Z.shiftr w0 28) 15 = 15
      \/ armv7_instr_types (row w0) = T_INVLD
      \/ (exists n, armv7_instr_types (row w0) = T_OTHER n)
      \/ (armv7_instr_types (row w0) = T_BRNCHMISC
          /\ ~ In (type4_instr_lookup (Z.land (Z.shiftr w0 4) 15))
                  [I_BKPT; I_BX; I_BXJ; I_BLX; I_MSR])
      \/ (armv7_instr_types (row w0) = T_OPLESS
          /\ type_opless_instr_lookup (Z.land w0 7) = I_INVLD)
      \/ (armv7_instr_types (row w0) = T_DST_SRC
          /\ type_shift_instr_lookup (Z.land (Z.shiftr w0 4) 15) = I_INVLD)).
Proof.
  unfold row.
  destruct (Z.eq_dec (Z.land (Z.shiftr w0 28) 15) 15) as [Hc|Hc].
  - rewrite (disassemble_unconditional d w0 Hc). cbn [fst].
    split; [now right|]. split; [now left | reflexivity].
  - rewrite (disassemble_conditional d w0 Hc).
    unfold armv7_disas_cond. cbv zeta. members.
    destruct (armv7_instr_types (Z.land (Z.shiftr w0 20) 255)) eqn:Hclass;
      members.
    all: repeat match goal with
         | |- context [match ?x with _ => _ end] =>
             destruct x eqn:?; cbn [fst snd]
         end.
    all: test_outcomes.
    all: split; [auto|].
    all: split; [intros Hret; try discriminate Hret | intros Hwhy].
    all: try solve [right; left; reflexivity].
    all: try solve [right; right; left; eexists; reflexivity].
    all: try solve [right; right; right; left; split; [reflexivity|];
                    cbn [In]; intuition discriminate].
    all: try solve [right; right; right; right; left; split;
                    [reflexivity | assumption]].
    all: try solve [right; right; right; right; right; split;
                    [reflexivity | assumption]].
    all: try reflexivity.
    all: exfalso;
      destruct Hwhy as [Hy|[Hy|[[k Hy]|[[Hy Hsub]|[[Hy Hsub]|[Hy Hsub]]]]]];
      try contradiction; try discriminate Hy; try congruence.
    all: apply Hsub; cbn [In]; tauto.
Qed.

End DecoderOutcome.

(** ** Decoder: the assembled immediates *)

(** A value stored above an [n]-bit field is read back by a shift, and the
    field by a mask. *)
Lemma split_fields (a b n : Z) :
  0 <= n -> 0 <= b < 2 ^ n ->
  Z.shiftr (a * 2 ^ n + b) n = a /\ Z.land (a * 2 ^ n + b) (Z.ones n) = b.
Proof.
  intros Hn Hb. split.
  - rewrite Z.shiftr_div_pow2 by exact Hn.
    rewrite Z.div_add_l by lia. rewrite Z.div_small by exact Hb. lia.
  - rewrite Z.land_ones by exact Hn.
    rewrite Z.add_comm, Z.mod_add by lia. apply Z.mod_small. exact Hb.
Qed.

Lemma branch_imm_backward (f : Z) :
  2 ^ 23 <= f < 2 ^ 24 ->
  u32 (Z.shiftl (Z.lor f 0xff000000) 2) = 4 * f + (2 ^ 32 - 2 ^ 26).
Proof.
  intros Hf. rewrite lor_top_byte by lia.
  rewrite Z.shiftl_mul_pow2 by lia. unfold u32.
  symmetry. apply Z.mod_unique_pos with (q := 3); lia.
Qed.

Lemma branch_imm_forward (f : Z) :
  0 <= f < 2 ^ 23 -> u32 (Z.shiftl f 2) = 4 * f.
Proof.
  intros Hf. rewrite Z.shiftl_mul_pow2 by lia. unfold u32.
  rewrite Z.mod_small; lia.
Qed.

Section DecoderImmediates.

Context `{hdr : darm_header}.

(** The breakpoint immediate is the 16-bit number whose upper twelve bits
    are bits 19-8 of the word and whose lower four bits are bits 3-0: both
    parts are read back from it. *)
Theorem bkpt_immediate (d : darm_t) (w0 : Z) :
  Z.land (Z.shiftr w0 28) 15 <> 15 ->
  armv7_instr_types (row w0) = T_BRNCHMISC ->
  type4_instr_lookup (Z.land (Z.shiftr w0 4) 15) = I_BKPT ->
  let r := armv7_disassemble d w0 in
  fst r = 0
  /\ instr (snd r) = I_BKPT
  /\ imm (snd r) = Z.land (Z.shiftr w0 8) 0xfff * 16 + Z.land w0 15
  /\ 0 <= imm (snd r) < 2 ^ 16
  /\ Z.shiftr (imm (snd r)) 4 = Z.land (Z.shiftr w0 8) 0xfff
  /\ Z.land (imm (snd r)) 15 = Z.land w0 15.
Proof.
  intros Hc Hclass Hsub r. subst r.
  rewrite disassemble_conditional by exact Hc.
  unfold armv7_disas_cond. cbv zeta. members. fold (row w0).
  rewrite Hclass. members. rewrite Hsub. members.
  rewrite bkpt_immediate_value.
  change 0xfff with BITMSK_12.
  pose proof (land_BITMSK_12_range (Z.shiftr w0 8)) as Hhi.
  pose proof (land_15_range w0) as Hlo.
  destruct (split_fields (Z.land (Z.shiftr w0 8) BITMSK_12) (Z.land w0 15) 4
              ltac:(lia) ltac:(lia)) as [Hshift Hmask].
  repeat split; try reflexivity; try lia; assumption.
Qed.

(** A move with an immediate takes the low twelve bits and the flags bit
    when the identity of the table is MOV or MVN; for every other identity
    of the class the immediate is the 16-bit number with bits 19-16 of the
    word above its low twelve bits, both read back from it, and the flags
    member stays 0. *)
Theorem mov_imm_immediate (d : darm_t) (w0 : Z) :
  Z.land (Z.shiftr w0 28) 15 <> 15 ->
  armv7_instr_types (row w0) = T_MOV_IMM ->
  let r := armv7_disassemble d w0 in
  let plain :=
    armv7_instr_labels (row w0) = I_MOV
    \/ armv7_instr_labels (row w0) = I_MVN in
  fst r = 0
  /\ instr (snd r) = armv7_instr_labels (row w0)
  /\ Rd (snd r) = Z.land (Z.shiftr w0 12) 15
  /\ (plain ->
        imm (snd r) = Z.land w0 0xfff
        /\ S (snd r) = Z.land (Z.shiftr w0 20) 1)
  /\ (~ plain ->
        imm (snd r) = Z.land (Z.shiftr w0 16) 15 * 4096 + Z.land w0 0xfff
        /\ 0 <= imm (snd r) < 2 ^ 16
        /\ Z.shiftr (imm (snd r)) 12 = Z.land (Z.shiftr w0 16) 15
        /\ Z.land (imm (snd r)) 0xfff = Z.land w0 0xfff
        /\ S (snd r) = 0).
Proof.
  intros Hc Hclass r plain. subst r.
  rewrite disassemble_conditional by exact Hc.
  unfold armv7_disas_cond. cbv zeta. members. fold (row w0).
  rewrite Hclass. members.
  change 0xfff with BITMSK_12.
  destruct (instr_eqb (armv7_instr_labels (row w0)) I_MOV
            || instr_eqb (armv7_instr_labels (row w0)) I_MVN)%bool eqn:Htest;
    members; unfold darm_memset0; members.
  - apply orb_true_iff in Htest. rewrite !instr_eqb_eq in Htest.
    split; [reflexivity | split; [reflexivity | split; [reflexivity|]]].
    split; [intros _; split; reflexivity | intros Hno; contradiction].
  - apply orb_false_iff in Htest. rewrite !instr_eqb_neq in Htest.
    split; [reflexivity | split; [reflexivity | split; [reflexivity|]]].
    split; [intros [Hp|Hp]; tauto | intros _].
    rewrite wide_immediate.
    pose proof (land_BITMSK_12_range w0) as Hlo.
    pose proof (land_15_range (Z.shiftr w0 16)) as Hhi.
    destruct (split_fields (Z.land (Z.shiftr w0 16) 15)
                (Z.land w0 BITMSK_12) 12 ltac:(lia) ltac:(lia))
      as [Hshift Hmask].
    change (Z.ones 12) with BITMSK_12 in Hmask.
    repeat split; try reflexivity; try lia; assumption.
Qed.

(** A branch displacement is a multiple of 4 in the range of 26-bit signed
    numbers, and the 24-bit field of the word is read back from it. *)
Theorem branch_displacement_roundtrip (d : darm_t) (w0 : Z) :
  Z.land (Z.shiftr w0 28) 15 <> 15 ->
  armv7_instr_types (row w0) = T_BRNCHSC ->
  armv7_instr_labels (row w0) <> I_SVC ->
  let r := armv7_disassemble d w0 in
  Z.land (Z.shiftr (imm (snd r)) 2) 0xffffff = Z.land w0 0xffffff
  /\ Z.land (imm (snd r)) 3 = 0
  /\ - 2 ^ 25 <= to_int32 (imm (snd r)) < 2 ^ 25.
Proof.
  intros Hc Hclass Hsvc r. subst r.
  rewrite disassemble_conditional by exact Hc.
  unfold armv7_disas_cond. cbv zeta. members. fold (row w0).
  rewrite Hclass. members.
  apply instr_eqb_neq in Hsvc. rewrite Hsvc. cbn [negb].
  change 0xffffff with BITMSK_24.
  pose proof (land_BITMSK_24_range w0) as Hf.
  set (f := Z.land w0 BITMSK_24) in *.
  rewrite land_1_testbit by lia.
  rewrite testbit_23_field by exact Hf.
  change 3 with (Z.ones 2). change BITMSK_24 with (Z.ones 24).
  destruct (Z.leb_spec (2 ^ 23) f) as [Hhigh|Hlow];
    cbn [Z.b2z Z.eqb negb]; members.
  - rewrite branch_imm_backward by lia.
    rewrite !Z.land_ones, Z.shiftr_div_pow2 by lia.
    replace (4 * f + (2 ^ 32 - 2 ^ 26)) with ((f + 63 * 2 ^ 24) * 2 ^ 2)
      by lia.
    rewrite Z.div_mul, Z.mod_mul, Z.mod_add by lia.
    rewrite Z.mod_small by lia.
    split; [reflexivity | split; [reflexivity|]].
    unfold to_int32.
    destruct (Z.ltb_spec ((f + 63 * 2 ^ 24) * 2 ^ 2) (2 ^ 31)); lia.
  - rewrite branch_imm_forward by lia.
    rewrite !Z.land_ones, Z.shiftr_div_pow2 by lia.
    replace (4 * f) with (f * 2 ^ 2) by lia.
    rewrite Z.div_mul, Z.mod_mul by lia.
    rewrite Z.mod_small by lia.
    split; [reflexivity | split; [reflexivity|]].
    unfold to_int32. destruct (Z.ltb_spec (f * 2 ^ 2) (2 ^ 31)); lia.
Qed.

End DecoderImmediates.

Lemma bkpt_immediate_witness :
  (* BKPT #0x1234 *)
  imm (snd (armv7_disassemble (hdr := arm_sample) d_stale 0xE1212374))
  = 0x1234.
Proof.
  assert (Hc : forall x, x = 14 -> x <> 15) by (intros x ->; discriminate).
  destruct (bkpt_immediate (hdr := arm_sample) d_stale 0xE1212374
              (Hc _ eq_refl) eq_refl eq_refl) as (_ & _ & Himm & _).
  exact Himm.
Defined.

Lemma mov_imm_immediate_witness :
  (* MOVW r0, #0x1234 and MOVS r0, #5 *)
  imm (snd (armv7_disassemble (hdr := arm_sample_ext) d_stale 0xE3010234))
  = 0x1234
  /\ imm (snd (armv7_disassemble (hdr := arm_sample_ext) d_stale 0xE3B00005))
     = 5
  /\ S (snd (armv7_disassemble (hdr := arm_sample_ext) d_stale 0xE3B00005))
     = 1.
Proof.
  assert (Hc : forall x, x = 14 -> x <> 15) by (intros x ->; discriminate).
  destruct (mov_imm_immediate (hdr := arm_sample_ext) d_stale 0xE3010234
              (Hc _ eq_refl) eq_refl) as (_ & _ & _ & _ & Hwide).
  destruct (mov_imm_immediate (hdr := arm_sample_ext) d_stale 0xE3B00005
              (Hc _ eq_refl) eq_refl) as (_ & _ & _ & Hplain & _).
  destruct Hwide as (Hw & _).
  { intros [Hp|Hp]; discriminate Hp. }
  destruct Hplain as (Hi & Hs).
  { left. reflexivity. }
  split; [exact Hw | split; [exact Hi | exact Hs]].
Defined.

Lemma branch_displacement_roundtrip_witness :
  (* B with field 0xfffffe *)
  Z.land
    (Z.shiftr
       (imm (snd (armv7_disassemble (hdr := arm_sample) d_stale 0xEAFFFFFE)))
       2) 0xffffff
  = 0xfffffe.
Proof.
  assert (Hc : forall x, x = 14 -> x <> 15) by (intros x ->; discriminate).
  destruct (branch_displacement_roundtrip (hdr := arm_sample) d_stale
              0xEAFFFFFE (Hc _ eq_refl) eq_refl ltac:(discriminate))
    as (Hback & _).
  exact Hback.
Defined.

(** ** Decoder: identities and operand bits *)

Lemma bit_field (x k n : Z) :
  0 <= k -> 0 <= n ->
  Z.land (Z.shiftr x k) (Z.ones n) = (x / 2 ^ k) mod 2 ^ n.
Proof.
  intros Hk Hn. now rewrite Z.land_ones, Z.shiftr_div_pow2.
Qed.

(** States the bit fields of a word by division and remainder. *)
Ltac fields_to_arith w0 :=
  change 1 with (Z.ones 1) in *; change 3 with (Z.ones 2) in *;
  change 15 with (Z.ones 4) in *; change 31 with (Z.ones 5) in *;
  change BITMSK_12 with (Z.ones 12) in *;
  rewrite ?bit_field in * by lia;
  rewrite ?Z.land_ones in * by lia;
  cbn [Z.ones Z.shiftl Pos.shiftl Pos.iter Z.pred Z.pow Z.pow_pos Pos.mul
       Z.mul Z.add Pos.add Pos.pred_double Pos.succ Z.pos_sub Z.opp Z.sub]
    in *.

Section DecoderIdentities.

Context `{hdr : darm_header}.

(** The class member of a decoded record is the class of the table row and
    is never rewritten.  The identity is the one of the row in the classes
    without a sub-table, ADR apart; in the branch-misc and no-operand classes
    it is the sub-table identity, also when the call fails. *)
Theorem identity_sources (d : darm_t) (w0 : Z) :
  Z.land (Z.shiftr w0 28) 15 <> 15 ->
  let d' := snd (armv7_disassemble d w0) in
  instr_type d' = armv7_instr_types (row w0)
  /\ (instr_type d' = T_INVLD \/ instr_type d' = T_ARITH_SHIFT
      \/ instr_type d' = T_BRNCHSC \/ instr_type d' = T_MOV_IMM
      \/ instr_type d' = T_CMP_OP \/ instr_type d' = T_CMP_IMM ->
        instr d' = armv7_instr_labels (row w0))
  /\ (instr_type d' = T_ARITH_IMM ->
        instr d' = armv7_instr_labels (row w0) \/ instr d' = I_ADR)
  /\ (instr_type d' = T_BRNCHMISC ->
        instr d' = type4_instr_lookup (Z.land (Z.shiftr w0 4) 15))
  /\ (instr_type d' = T_OPLESS ->
        instr d' = type_opless_instr_lookup (Z.land w0 7)).
Proof.
  intros Hc d'. subst d'. unfold row.
  rewrite disassemble_conditional by exact Hc.
  unfold armv7_disas_cond. cbv zeta. members.
  destruct (armv7_instr_types (Z.land (Z.shiftr w0 20) 255)) eqn:Hclass;
    members.
  all: repeat match goal with
       | |- context [match ?x with _ => _ end] =>
           destruct x eqn:?; cbn [fst snd]
       end.
  all: members.
  all: split; [reflexivity|].
  all: repeat match goal with
       | |- _ /\ _ => split
       | |- _ -> _ => intros ?
       end.
  all: try reflexivity; try discriminate; try congruence.
  all: try solve [intuition discriminate].
  all: try solve [left; reflexivity].
  all: try solve [right; reflexivity].
Qed.

(** In the destination-source-shift class with a valid sub-table identity
    the call succeeds.  The register form (bit 4 set) puts bits 11-8 in [Rm]
    and bits 3-0 in [Rn] and keeps the identity.  The identity differs from
    the sub-table one only for an immediate form with shift amount 0: a
    logical-left-shift of type 0, or a rotate-right of type 3. *)
Theorem dst_src_identity (d : darm_t) (w0 : Z) :
  Z.land (Z.shiftr w0 28) 15 <> 15 ->
  armv7_instr_types (row w0) = T_DST_SRC ->
  type_shift_instr_lookup (Z.land (Z.shiftr w0 4) 15) <> I_INVLD ->
  let r := armv7_disassemble d w0 in
  let sub := type_shift_instr_lookup (Z.land (Z.shiftr w0 4) 15) in
  fst r = 0
  /\ S (snd r) = Z.land (Z.shiftr w0 20) 1
  /\ Rd (snd r) = Z.land (Z.shiftr w0 12) 15
  /\ type (snd r) = Z.land (Z.shiftr w0 5) 3
  /\ (Z.land (Z.shiftr w0 4) 1 <> 0 ->
        instr (snd r) = sub
        /\ Rm (snd r) = Z.land (Z.shiftr w0 8) 15
        /\ Rn (snd r) = Z.land w0 15
        /\ shift (snd r) = 0)
  /\ (Z.land (Z.shiftr w0 4) 1 = 0 ->
        Rm (snd r) = Z.land w0 15
        /\ Rn (snd r) = 0
        /\ shift (snd r) = Z.land (Z.shiftr w0 7) 31)
  /\ (instr (snd r) <> sub ->
        Z.land (Z.shiftr w0 4) 1 = 0
        /\ shift (snd r) = 0
        /\ ((sub = I_LSL /\ type (snd r) = 0
             /\ instr (snd r)
                = if Rd (snd r) =? Rm (snd r) then I_NOP else I_MOV)
            \/ (sub = I_ROR /\ type (snd r) = 3 /\ instr (snd r) = I_RRX))).
Proof.
  intros Hc Hclass Hsub r sub. subst r.
  rewrite disassemble_conditional by exact Hc.
  unfold armv7_disas_cond. cbv zeta. members. fold (row w0).
  rewrite Hclass. members. fold sub. fold sub in Hsub.
  apply instr_eqb_neq in Hsub. rewrite Hsub. cbn [negb].
  unfold darm_memset0.
  repeat match goal with
  | |- context [match ?x with _ => _ end] => destruct x eqn:?; cbn [fst snd]
  end.
  all: members_everywhere; test_outcomes.
  all: split; [reflexivity | split; [reflexivity | split; [reflexivity|]]].
  all: split; [reflexivity|].
  all: split; [intros Hb4; try contradiction; try (repeat split; reflexivity)|].
  all: split; [intros Hb4; try contradiction; try (repeat split; reflexivity)|].
  all: intros Hdiff; try (exfalso; apply Hdiff; reflexivity).
  all: split; [assumption | split; [assumption|]].
  all: try solve [left; split; [assumption | split; [assumption | reflexivity]]].
  all: try solve [right; split; [assumption | split; [assumption | reflexivity]]].
  all: exfalso; congruence.
Qed.

(** In the arithmetic-with-shift class the members hold every operand bit of
    the word but bit 7 of the register form: bits 20-0 are rebuilt from
    them. *)
Theorem arith_shift_members_determine_word (d : darm_t) (w0 : Z) :
  Z.land (Z.shiftr w0 28) 15 <> 15 ->
  armv7_instr_types (row w0) = T_ARITH_SHIFT ->
  let r := armv7_disassemble d w0 in
  let d' := snd r in
  fst r = 0
  /\ instr d' = armv7_instr_labels (row w0)
  /\ (shift_is_reg d' = 0 \/ shift_is_reg d' = 1)
  /\ (shift_is_reg d' = 0 ->
        w0 mod 2 ^ 21
        = S d' * 2 ^ 20 + Rn d' * 2 ^ 16 + Rd d' * 2 ^ 12
          + shift d' * 2 ^ 7 + type d' * 2 ^ 5 + Rm d')
  /\ (shift_is_reg d' = 1 ->
        w0 mod 2 ^ 21
        = S d' * 2 ^ 20 + Rn d' * 2 ^ 16 + Rd d' * 2 ^ 12
          + Rs d' * 2 ^ 8 + Z.land (Z.shiftr w0 7) 1 * 2 ^ 7
          + type d' * 2 ^ 5 + 2 ^ 4 + Rm d').
Proof.
  intros Hc Hclass r d'. subst d' r.
  rewrite disassemble_conditional by exact Hc.
  unfold armv7_disas_cond. cbv zeta. members. fold (row w0).
  rewrite Hclass. members.
  pose proof (land_1_range (Z.shiftr w0 4)) as Hb4.
  destruct (Z.eqb_spec (Z.land (Z.shiftr w0 4) 1) 0) as [Hz|Hnz];
    cbn [negb]; members.
  all: split; [reflexivity | split; [reflexivity | split; [lia|]]].
  all: split; intros Hflag; try (exfalso; lia).
  all: clear Hc Hclass; fields_to_arith w0.
  all: Z.to_euclidean_division_equations; lia.
Qed.

End DecoderIdentities.

Lemma identity_sources_witness :
  (* BKPT #0x1234: the identity comes from the sub-table *)
  instr_type
    (snd (armv7_disassemble (hdr := arm_sample) d_stale 0xE1212374))
  = T_BRNCHMISC
  /\ instr (snd (armv7_disassemble (hdr := arm_sample) d_stale 0xE1212374))
     = I_BKPT.
Proof.
  assert (Hc : forall x, x = 14 -> x <> 15) by (intros x ->; discriminate).
  destruct (identity_sources (hdr := arm_sample) d_stale 0xE1212374
              (Hc _ eq_refl)) as (Hclass & _ & _ & Hmisc & _).
  split; [exact Hclass | exact (Hmisc eq_refl)].
Defined.

Lemma dst_src_identity_witness :
  (* LSL r0, r1, r2: the register form *)
  instr (snd (armv7_disassemble (hdr := arm_sample) d_stale 0xE1A00211))
  = I_LSL
  /\ Rm (snd (armv7_disassemble (hdr := arm_sample) d_stale 0xE1A00211)) = 2
  /\ Rn (snd (armv7_disassemble (hdr := arm_sample) d_stale 0xE1A00211)) = 1.
Proof.
  assert (Hc : forall x, x = 14 -> x <> 15) by (intros x ->; discriminate).
  destruct (dst_src_identity (hdr := arm_sample) d_stale 0xE1A00211
              (Hc _ eq_refl) eq_refl ltac:(discriminate))
    as (_ & _ & _ & _ & Hreg & _).
  destruct Hreg as (Hi & Hm & Hn & _); [discriminate|].
  split; [exact Hi | split; [exact Hm | exact Hn]].
Defined.

Lemma arith_shift_members_determine_word_witness :
  (* ADD r0, r1, r2, LSL #3 *)
  0xE0810182 mod 2 ^ 21 = 0 * 2 ^ 20 + 1 * 2 ^ 16 + 0 * 2 ^ 12
                          + 3 * 2 ^ 7 + 0 * 2 ^ 5 + 2.
Proof.
  assert (Hc : forall x, x = 14 -> x <> 15) by (intros x ->; discriminate).
  destruct (arith_shift_members_determine_word (hdr := arm_sample_ext)
              d_stale 0xE0810182 (Hc _ eq_refl) eq_refl)
    as (_ & _ & _ & Himm & _).
  exact (Himm eq_refl).
Defined.

Lemma shift_register_excludes_amount_witness :
  (* ADD r0, r1, r2, LSL r3 and ADD r0, r1, r2, LSL #3 *)
  Rs (snd (armv7_disassemble (hdr := arm_sample_ext) d_stale 0xE0810312)) = 3
  /\ shift (snd (armv7_disassemble (hdr := arm_sample_ext) d_stale 0xE0810312))
     = 0
  /\ shift (snd (armv7_disassemble (hdr := arm_sample_ext) d_stale 0xE0810182))
     = 3
  /\ Rs (snd (armv7_disassemble (hdr := arm_sample_ext) d_stale 0xE0810182))
     = 0.
Proof.
  destruct (shift_register_excludes_amount (hdr := arm_sample_ext)
              d_stale 0xE0810312) as (Hreg & _).
  destruct (shift_register_excludes_amount (hdr := arm_sample_ext)
              d_stale 0xE0810182) as (_ & Himm).
  destruct Hreg as (Hs & _ & Hr & _); [discriminate|].
  destruct Himm as (Hr' & _ & Hs' & _); [discriminate|].
  split; [exact Hr | split; [exact Hs | split; [exact Hs' | exact Hr']]].
Defined.

(** ** Shifter-operand decoder: reading its result *)

(** The decoder stays inside [shift_types] exactly for the shift types 0 to
    3; any other value of the member [type] makes it read outside the
    table. *)
Theorem shift_decode_defined_iff (d : darm_t) :
  armv7_shift_decode d <> None <-> 0 <= type d <= 3.
Proof.
  unfold armv7_shift_decode, array_get. split.
  - intros Hdef.
    destruct (Z.ltb_spec (type d) 0) as [Hneg|Hpos].
    + exfalso. apply Hdef.
      destruct (Z.eqb_spec (type d) 0); [lia|].
      destruct (Z.eqb_spec (type d) 3); [lia|]. reflexivity.
    + destruct (Z.le_gt_cases (type d) 3) as [Hle|Hgt]; [lia|].
      exfalso. apply Hdef.
      destruct (Z.eqb_spec (type d) 0); [lia|].
      destruct (Z.eqb_spec (type d) 3); [lia|]. cbn [andb].
      replace (nth_error shift_types (Z.to_nat (type d))) with (@None string);
        [reflexivity|].
      symmetry. apply nth_error_None. cbn. lia.
  - intros Ht. apply shift_type_cases in Ht.
    destruct (Rs d =? 0);
      destruct Ht as [-> | [-> | [-> | ->]]]; cbn; discriminate.
Qed.

(** From a result of the decoder: the label is absent only for type 0 with
    a zero [Rs], it is "RRX" only for type 3 with a zero [Rs], the amount
    is 0 only in these two cases, and an amount other than [Rs] is the 32 of
    types 1 and 2. *)
Theorem shift_decode_result_cases (d : darm_t) (label : option string)
    (amount : Z) :
  armv7_shift_decode d = Some (label, amount) ->
  (label = None <-> type d = 0 /\ Rs d = 0)
  /\ (label = Some "RRX"%string <-> type d = 3 /\ Rs d = 0)
  /\ (amount = 0 <-> Rs d = 0 /\ (type d = 0 \/ type d = 3))
  /\ (amount <> Rs d ->
        amount = 32 /\ Rs d = 0 /\ (type d = 1 \/ type d = 2)).
Proof.
  intros Hres.
  assert (Ht : 0 <= type d <= 3)
    by (apply shift_decode_defined_iff; congruence).
  apply shift_type_cases in Ht. revert Hres. unfold armv7_shift_decode.
  destruct (Z.eqb_spec (Rs d) 0) as [Hr|Hr];
    destruct Ht as [Ht | [Ht | [Ht | Ht]]]; rewrite Ht; cbn;
    intros [= <- <-]; repeat split; intros; try discriminate; try lia;
    try tauto; try (exfalso; intuition (discriminate || lia)).
Qed.

Lemma shift_decode_result_cases_witness :
  (Some "ASR"%string = None <-> type d_stale = 0 /\ Rs d_stale = 0)
  /\ (5 = 0 <-> Rs d_stale = 0 /\ (type d_stale = 0 \/ type d_stale = 3)).
Proof.
  destruct (shift_decode_result_cases d_stale (Some "ASR"%string) 5 eq_refl)
    as (Hnone & _ & Hzero & _).
  split; [exact Hnone | exact Hzero].
Defined.

(** ** Decoder: the branch-misc class *)

Section DecoderBranchMisc.

Context `{hdr : darm_header}.

(** In the branch-misc class, BX, BXJ and BLX give a record whose only
    operand is [Rm] = bits 3-0, and MSR a record whose only operands are
    [Rn] = bits 3-0 and the 2-bit immediate of bits 19-18; every other
    member is as the clearing of the record left it. *)
Theorem branch_misc_records (d : darm_t) (w0 : Z) :
  Z.land (Z.shiftr w0 28) 15 <> 15 ->
  armv7_instr_types (row w0) = T_BRNCHMISC ->
  let r := armv7_disassemble d w0 in
  let sub := type4_instr_lookup (Z.land (Z.shiftr w0 4) 15) in
  (sub = I_BX \/ sub = I_BXJ \/ sub = I_BLX ->
     r = (0, mk_darm w0 sub T_BRNCHMISC (Z.land (Z.shiftr w0 28) 15)
                     0 0 0 (Z.land w0 15) 0 0 0 0 0 0))
  /\ (sub = I_MSR ->
        r = (0, mk_darm w0 I_MSR T_BRNCHMISC (Z.land (Z.shiftr w0 28) 15)
                        0 0 (Z.land w0 15) 0 0 0 0 0
                        (Z.land (Z.shiftr w0 18) 3) 0)
        /\ 0 <= imm (snd r) <= 3).
Proof.
  intros Hc Hclass r sub. subst r.
  rewrite disassemble_conditional by exact Hc.
  unfold armv7_disas_cond. cbv zeta. members. fold (row w0).
  rewrite Hclass. members. fold sub. unfold darm_memset0.
  split.
  - intros [Hs | [Hs | Hs]]; rewrite Hs; reflexivity.
  - intros Hs. rewrite Hs. members. split; [reflexivity|].
    apply land_3_range.
Qed.

End DecoderBranchMisc.

Lemma branch_misc_records_witness :
  (* BX lr *)
  armv7_disassemble (hdr := arm_sample) d_stale 0xE12FFF1E
  = (0, mk_darm 0xE12FFF1E I_BX T_BRNCHMISC 14 0 0 0 14 0 0 0 0 0 0).
Proof.
  assert (Hc : forall x, x = 14 -> x <> 15) by (intros x ->; discriminate).
  destruct (branch_misc_records (hdr := arm_sample) d_stale 0xE12FFF1E
              (Hc _ eq_refl) eq_refl) as (Hbx & _).
  exact (Hbx (or_introl eq_refl)).
Defined.
